(** * Tasks API: a shallow embedding of [main.py]

    The service keeps a module-level dictionary [DB] from integer ids to
    [Task] records and a module-level counter [_id_counter].  Every endpoint
    is a FastAPI route: the framework first solves the route's dependencies
    ([require_key], fed by the [x-api-key] header), then validates the JSON
    body against the handler's pydantic model, and only then calls the
    handler.  An [HTTPException] becomes a response with its status code, a
    request validation failure becomes 422, and any other exception leaving
    a handler becomes 500.

    Modelling choices:
    - a Python [str] is a [string], its [len] is [String.length];
    - a [date] is its proleptic ordinal ([date.toordinal()]), a [datetime]
      is a number of microseconds since the epoch, both in [Z]; the order of
      the Python values is the order of [Z];
    - Python [int] is unbounded: ids are in [Z];
    - [DB] is a Python [dict], which keeps insertion order and is listed by
      [list_tasks_simple]: it is an association list with the dictionary
      operations written out;
    - the clock is read from an environment [Env]: a reading of
      [date.today()] and one of [datetime.now(timezone.utc)].  The code
      reads the date twice while it serves a request with a body: in the
      field validator of the body, and again inside the constructor of
      [Task] in the handler.  [serve e] is the request served while the
      date does not change: both readings are [today e].  [serve_at ev eh]
      is the general case: the body is validated at the date of [ev] and
      the handler runs with the clock [eh]; [serve_at e e] is [serve e]. *)

From Stdlib Require Import ZArith List Ascii String Bool Lia.
Import ListNotations.
Open Scope string_scope.
Open Scope list_scope.
Open Scope Z_scope.

(** ** Data model *)

(** [Priority = Literal["low", "medium", "high"]] *)
Inductive Priority : Set := low | medium | high.

(** [Status = Literal["todo", "doing", "done"]] *)
Inductive Status : Set := todo | doing | done.

Definition date := Z.
Definition datetime := Z.

(** A key of a JSON body (or of a keyword dictionary): left out, [null], or
    holding a value. *)
Inductive field (A : Type) : Type :=
| Unset : field A
| Null : field A
| Val : A -> field A.
Arguments Unset {A}.
Arguments Null {A}.
Arguments Val {A} _.

(** The decoded JSON object of a request body.  Both input models read the
    same five keys; keys they do not declare are ignored by pydantic. *)
Record Body : Type := mkBody {
  b_title : field string;
  b_description : field string;
  b_priority : field string;
  b_status : field string;
  b_due_date : field date
}.

(** [class TaskIn(BaseModel)]: a validated create/replace payload. *)
Record TaskIn : Type := mkTaskIn {
  title : string;
  description : option string;
  priority : Priority;
  status : Status;
  due_date : option date
}.

(** [class TaskUpdate(BaseModel)]: a validated partial payload.  Every field
    is [Optional] with default [None]; [Unset] records that the client did
    not send the key (pydantic's [model_fields_set]). *)
Record TaskUpdate : Type := mkTaskUpdate {
  u_title : field string;
  u_description : field string;
  u_priority : field Priority;
  u_status : field Status;
  u_due_date : field date
}.

(** [class Task(TaskIn)]: the stored record.  The coercion plays the part of
    inheritance: a [Task] has the fields of its [TaskIn]. *)
Record Task : Type := mkTask {
  base :> TaskIn;
  id : Z;
  created_at : datetime;
  updated_at : datetime
}.

(** The keyword dictionary handed to [Task(...)]: what [model_dump()]
    returns, possibly overwritten by the keys of a partial payload, in which
    [None] may stand where [Task] wants a value. *)
Record TaskData : Type := mkData {
  d_id : Z;
  d_title : option string;
  d_description : option string;
  d_priority : option Priority;
  d_status : option Status;
  d_due_date : option date;
  d_created_at : datetime;
  d_updated_at : datetime
}.

(** ** Exceptions and responses *)

(** A location of a validation error, such as [body.title]. *)
Definition loc := string.

Inductive exn : Type :=
| HTTPException (status_code : Z) (detail : string)
| ValidationError (errors : list loc)
| KeyError (key : Z).

Inductive content : Type :=
| CMessage (message : string)
| CTask (task : Task)
| CTasks (tasks : list Task)
| CEmpty
| CDetail (detail : string)
| CErrors (errors : list loc)
| CInternal.

Record response : Type := Response {
  status_code : Z;
  body : content
}.

(** ** The clock *)

Record Env : Type := mkEnv {
  today : date;
  now : datetime
}.

(** ** The dictionary [DB] *)

Definition dict := list (Z * Task).

(** [k in d] *)
Fixpoint dict_contains (k : Z) (d : dict) : bool :=
  match d with
  | [] => false
  | (k', _) :: r => if k =? k' then true else dict_contains k r
  end.

(** [d.get(k)] *)
Fixpoint dict_get (k : Z) (d : dict) : option Task :=
  match d with
  | [] => None
  | (k', v) :: r => if k =? k' then Some v else dict_get k r
  end.

(** [d[k] = v]: an existing key keeps its place, a new one goes last. *)
Fixpoint dict_setitem (k : Z) (v : Task) (d : dict) : dict :=
  match d with
  | [] => [(k, v)]
  | (k', v') :: r =>
      if k =? k' then (k, v) :: r else (k', v') :: dict_setitem k v r
  end.

(** [del d[k]] for a key that is present. *)
Fixpoint dict_delitem (k : Z) (d : dict) : dict :=
  match d with
  | [] => []
  | (k', v') :: r =>
      if k =? k' then r else (k', v') :: dict_delitem k r
  end.

(** [list(d.values())] *)
Definition dict_values (d : dict) : list Task := map snd d.

Definition dict_keys (d : dict) : list Z := map fst d.

(** ** Process state and the handler monad *)

(** The two module-level globals.  [_id_counter] holds the value that the
    next [next(_id_counter)] returns. *)
Record State : Type := mkState {
  DB : dict;
  _id_counter : Z
}.

(** [DB = {}], [_id_counter = itertools.count(1)] *)
Definition init : State := mkState [] 1.

(** A handler body: it reads and writes the globals and either returns a
    value or raises.  A raise keeps the writes done before it. *)
Definition M (A : Type) : Type := State -> (exn + A) * State.

Definition ret {A} (a : A) : M A := fun s => (inr a, s).

Definition raise {A} (e : exn) : M A := fun s => (inl e, s).

Definition bind {A B} (m : M A) (k : A -> M B) : M B :=
  fun s =>
    match m s with
    | (inl e, s') => (inl e, s')
    | (inr a, s') => k a s'
    end.

Notation "x <- m ;; k" := (bind m (fun x => k))
  (at level 61, m at next level, right associativity).
Notation "m ;;; k" := (bind m (fun _ => k))
  (at level 61, right associativity).

(** A constructor call that may raise. *)
Definition lift {A} (r : exn + A) : M A :=
  match r with
  | inl e => raise e
  | inr a => ret a
  end.

(** [next(_id_counter)] *)
Definition next_id : M Z :=
  fun s => (inr (_id_counter s), mkState (DB s) (_id_counter s + 1)).

(** [task_id in DB] *)
Definition DB_contains (k : Z) : M bool :=
  fun s => (inr (dict_contains k (DB s)), s).

(** [DB.get(task_id)] *)
Definition DB_get (k : Z) : M (option Task) :=
  fun s => (inr (dict_get k (DB s)), s).

(** [DB[task_id]] *)
Definition DB_getitem (k : Z) : M Task :=
  fun s =>
    match dict_get k (DB s) with
    | Some t => (inr t, s)
    | None => (inl (KeyError k), s)
    end.

(** [DB[task_id] = task] *)
Definition DB_setitem (k : Z) (t : Task) : M unit :=
  fun s => (inr tt, mkState (dict_setitem k t (DB s)) (_id_counter s)).

(** [del DB[task_id]] *)
Definition DB_delitem (k : Z) : M unit :=
  fun s =>
    if dict_contains k (DB s)
    then (inr tt, mkState (dict_delitem k (DB s)) (_id_counter s))
    else (inl (KeyError k), s).

(** [list(DB.values())] *)
Definition DB_values : M (list Task) :=
  fun s => (inr (dict_values (DB s)), s).

(** ** Validation layer *)

(** Field validators return [None] when pydantic records an error for the
    field. *)

(** [Field(min_length=lo, max_length=hi)] on a [str]. *)
Definition str_constraints (lo hi : nat) (s : string) : option string :=
  if (Nat.leb lo (String.length s) && Nat.leb (String.length s) hi)%bool
  then Some s else None.

(** [Literal["low", "medium", "high"]] *)
Definition literal_Priority (s : string) : option Priority :=
  if String.eqb s "low" then Some low
  else if String.eqb s "medium" then Some medium
  else if String.eqb s "high" then Some high
  else None.

(** [Literal["todo", "doing", "done"]] *)
Definition literal_Status (s : string) : option Status :=
  if String.eqb s "todo" then Some todo
  else if String.eqb s "doing" then Some doing
  else if String.eqb s "done" then Some done
  else None.

(** [TaskIn.due_not_past]: [if v and v < date.today(): raise ValueError];
    a [date] is always truthy, so [v and ...] only lets [None] through. *)
Definition TaskIn_due_not_past (today : date) (v : option date)
  : option (option date) :=
  match v with
  | Some d => if d <? today then None else Some v
  | None => Some v
  end.

(** [TaskUpdate.due_not_past]: the same body, declared a second time. *)
Definition TaskUpdate_due_not_past (today : date) (v : option date)
  : option (option date) :=
  match v with
  | Some d => if d <? today then None else Some v
  | None => Some v
  end.

(** A field declared with [...]: the key must be there and hold a value. *)
Definition required {A B} (v : A -> option B) (f : field A) : option B :=
  match f with
  | Val a => v a
  | _ => None
  end.

(** A field of a non-optional type with a default: [null] is an error. *)
Definition defaulted {A B} (dflt : B) (v : A -> option B) (f : field A)
  : option B :=
  match f with
  | Unset => Some dflt
  | Null => None
  | Val a => v a
  end.

(** A field of type [Optional[...]] with default [None]; the result still
    tells a key left out from a [null]. *)
Definition optional {A B} (v : A -> option B) (f : field A)
  : option (field B) :=
  match f with
  | Unset => Some Unset
  | Null => Some Null
  | Val a => option_map Val (v a)
  end.

(** The attribute value of an optional field: [None] unless a value was
    given. *)
Definition to_option {A} (f : field A) : option A :=
  match f with
  | Val a => Some a
  | _ => None
  end.

(** A field validator (mode "after") on an optional field: it runs when the
    key was sent, on [None] for [null], and not on the default. *)
Definition validated {A} (v : option A -> option (option A)) (f : field A)
  : option (field A) :=
  match f with
  | Unset => Some Unset
  | _ =>
      match v (to_option f) with
      | Some (Some a) => Some (Val a)
      | Some None => Some Null
      | None => None
      end
  end.

Definition err {A} (l : loc) (o : option A) : list loc :=
  match o with
  | None => [l]
  | Some _ => []
  end.

(** Validation of a body as [TaskIn]; all field errors are collected. *)
Definition TaskIn_validate (today : date) (b : Body) : list loc + TaskIn :=
  let t := required (str_constraints 4 100) (b_title b) in
  let d := optional (str_constraints 0 100) (b_description b) in
  let p := defaulted medium literal_Priority (b_priority b) in
  let s := defaulted todo literal_Status (b_status b) in
  let dd := validated (TaskIn_due_not_past today) (b_due_date b) in
  match t, d, p, s, dd with
  | Some t', Some d', Some p', Some s', Some dd' =>
      inr (mkTaskIn t' (to_option d') p' s' (to_option dd'))
  | _, _, _, _, _ =>
      inl (err "body.title" t ++ err "body.description" d
           ++ err "body.priority" p ++ err "body.status" s
           ++ err "body.due_date" dd)
  end.

(** Validation of a body as [TaskUpdate]. *)
Definition TaskUpdate_validate (today : date) (b : Body)
  : list loc + TaskUpdate :=
  let t := optional (str_constraints 1 100) (b_title b) in
  let d := optional (str_constraints 0 500) (b_description b) in
  let p := optional literal_Priority (b_priority b) in
  let s := optional literal_Status (b_status b) in
  let dd := validated (TaskUpdate_due_not_past today) (b_due_date b) in
  match t, d, p, s, dd with
  | Some t', Some d', Some p', Some s', Some dd' =>
      inr (mkTaskUpdate t' d' p' s' dd')
  | _, _, _, _, _ =>
      inl (err "body.title" t ++ err "body.description" d
           ++ err "body.priority" p ++ err "body.status" s
           ++ err "body.due_date" dd)
  end.

(** A value that must not be [None] ([str], [Priority], [Status]). *)
Definition not_none {A B} (v : A -> option B) (o : option A) : option B :=
  match o with
  | Some a => v a
  | None => None
  end.

(** A value of an [Optional] type: [None] passes. *)
Definition or_none {A B} (v : A -> option B) (o : option A)
  : option (option B) :=
  match o with
  | Some a => option_map Some (v a)
  | None => Some None
  end.

(** The constructor [Task], called with the dictionary unpacked into
    keywords: [Task] inherits the fields of [TaskIn] with their
    constraints and its [due_not_past] validator, and every key is passed,
    so each of them is checked again. *)
Definition Task_init (today : date) (data : TaskData) : exn + Task :=
  let t := not_none (str_constraints 4 100) (d_title data) in
  let d := or_none (str_constraints 0 100) (d_description data) in
  let p := not_none Some (d_priority data) in
  let s := not_none Some (d_status data) in
  let dd := TaskIn_due_not_past today (d_due_date data) in
  match t, d, p, s, dd with
  | Some t', Some d', Some p', Some s', Some dd' =>
      inr (mkTask (mkTaskIn t' d' p' s' dd')
             (d_id data) (d_created_at data) (d_updated_at data))
  | _, _, _, _, _ =>
      inl (ValidationError
             (err "title" t ++ err "description" d ++ err "priority" p
              ++ err "status" s ++ err "due_date" dd))
  end.

(** The keywords of [Task] in [create_task] and [replace_task]: [id],
    [created_at], [updated_at] and the entries of [payload.model_dump()]. *)
Definition TaskIn_model_dump (tid : Z) (created updated : datetime)
    (payload : TaskIn) : TaskData :=
  mkData tid (Some (title payload)) (description payload)
    (Some (priority payload)) (Some (status payload)) (due_date payload)
    created updated.

(** [existing.model_dump()] *)
Definition Task_model_dump (t : Task) : TaskData :=
  mkData (id t) (Some (title t)) (description t) (Some (priority t))
    (Some (status t)) (due_date t) (created_at t) (updated_at t).

(** One key of [data.update(payload.model_dump(exclude_unset=True))]: a key
    that was sent overwrites the entry, with [None] for [null]. *)
Definition update_key {A} (old : option A) (f : field A) : option A :=
  match f with
  | Unset => old
  | Null => None
  | Val a => Some a
  end.

(** [data.update(payload.model_dump(exclude_unset=True))] *)
Definition data_update (data : TaskData) (payload : TaskUpdate) : TaskData :=
  mkData (d_id data)
    (update_key (d_title data) (u_title payload))
    (update_key (d_description data) (u_description payload))
    (update_key (d_priority data) (u_priority payload))
    (update_key (d_status data) (u_status payload))
    (update_key (d_due_date data) (u_due_date payload))
    (d_created_at data) (d_updated_at data).

(** [data["updated_at"] = v] *)
Definition set_updated_at (data : TaskData) (v : datetime) : TaskData :=
  mkData (d_id data) (d_title data) (d_description data) (d_priority data)
    (d_status data) (d_due_date data) (d_created_at data) v.

(** ** Handlers *)

Definition not_found : exn := HTTPException 404 "Task not found".

(** [def root()] *)
Definition root : M string :=
  ret "Welcome to my Tasks API! See /docs for usage.".

(** [def create_task(payload: TaskIn)] *)
Definition create_task (e : Env) (payload : TaskIn) : M Task :=
  let now := now e in
  tid <- next_id ;;
  task <- lift (Task_init (today e) (TaskIn_model_dump tid now now payload)) ;;
  DB_setitem tid task ;;;
  ret task.

(** [def get_task(task_id: int)]; a model instance is always truthy, so
    [not task] holds for [None] only. *)
Definition get_task (task_id : Z) : M Task :=
  task <- DB_get task_id ;;
  match task with
  | None => raise not_found
  | Some task => ret task
  end.

(** [def replace_task(task_id: int, payload: TaskIn)] *)
Definition replace_task (e : Env) (task_id : Z) (payload : TaskIn) : M Task :=
  present <- DB_contains task_id ;;
  if negb present then raise not_found else
  let now := now e in
  old <- DB_getitem task_id ;;
  task <- lift (Task_init (today e)
                  (TaskIn_model_dump task_id (created_at old) now payload)) ;;
  DB_setitem task_id task ;;;
  ret task.

(** [def update_task(task_id: int, payload: TaskUpdate)] *)
Definition update_task (e : Env) (task_id : Z) (payload : TaskUpdate)
  : M Task :=
  present <- DB_contains task_id ;;
  if negb present then raise not_found else
  existing <- DB_getitem task_id ;;
  let data := Task_model_dump existing in
  let data := data_update data payload in
  let data := set_updated_at data (now e) in
  task <- lift (Task_init (today e) data) ;;
  DB_setitem task_id task ;;;
  DB_getitem task_id.

(** [def delete_task(task_id: int)] *)
Definition delete_task (task_id : Z) : M unit :=
  present <- DB_contains task_id ;;
  if negb present then raise not_found else
  DB_delitem task_id ;;;
  ret tt.

(** [def list_tasks_simple()] *)
Definition list_tasks_simple : M (list Task) := DB_values.

(** ** Routes *)

(** What solving a route's dependency gives: the dependency ran, it raised,
    or one of its own parameters could not be read. *)
Inductive dep_result : Type :=
| DepOk
| DepRaised (e : exn)
| DepErrors (errors : list loc).

(** The framework's translation of an exception that leaves a dependency or
    a handler. *)
Definition response_of_exn (e : exn) : response :=
  match e with
  | HTTPException c d => Response c (CDetail d)
  | _ => Response 500 CInternal
  end.

Definition body_errors {P} (payload : list loc + P) : list loc :=
  match payload with
  | inl errors => errors
  | inr _ => []
  end.

Section Service.

(** [API_KEY = os.getenv("API_KEY", "supersecret123")], read once when the
    module is loaded. *)
Variable API_KEY : string.

(** [def require_key(x_api_key: str = Header(..., alias="x-api-key"))] *)
Definition require_key (x_api_key : string) : exn + unit :=
  if negb (String.eqb x_api_key API_KEY)
  then inl (HTTPException 401 "Invalid or missing API key")
  else inr tt.

(** [Depends(require_key)]: the parameter is declared with [Header(...)],
    a required header.  Without the header there is no value to call
    [require_key] with, and the framework records a request validation
    error instead. *)
Definition solve_require_key (x_api_key : option string) : dep_result :=
  match x_api_key with
  | None => DepErrors ["header.x-api-key"]
  | Some v =>
      match require_key v with
      | inl e => DepRaised e
      | inr _ => DepOk
      end
  end.

(** A route with [dependencies=[Depends(require_key)]]: the dependency is
    solved first and what it raises ends the request; then the errors of the
    dependency's parameters and of the body are reported together as 422;
    then the handler runs. *)
Definition route {P A} (x_api_key : option string) (payload : list loc + P)
    (handler : P -> M A) (ok : A -> response) (s : State)
  : response * State :=
  match solve_require_key x_api_key with
  | DepRaised e => (response_of_exn e, s)
  | DepErrors errors =>
      (Response 422 (CErrors (errors ++ body_errors payload)), s)
  | DepOk =>
      match payload with
      | inl errors => (Response 422 (CErrors errors), s)
      | inr p =>
          match handler p s with
          | (inl e, s') => (response_of_exn e, s')
          | (inr a, s') => (ok a, s')
          end
      end
  end.

(** A request, with the path parameter already read as an [int]. *)
Inductive request : Type :=
| GET_root
| POST_tasks (x_api_key : option string) (b : Body)
| GET_task (x_api_key : option string) (task_id : Z)
| PUT_task (x_api_key : option string) (task_id : Z) (b : Body)
| PATCH_task (x_api_key : option string) (task_id : Z) (b : Body)
| DELETE_task (x_api_key : option string) (task_id : Z)
| GET_tasks (x_api_key : option string).

Definition no_payload : list loc + unit := inr tt.

(** The application: one request served in a state, at a clock reading
    that holds for the whole request (the date is the same when the body is
    validated and when the handler builds the [Task]). *)
Definition serve (e : Env) (r : request) (s : State) : response * State :=
  match r with
  | GET_root =>
      match root s with
      | (inl x, s') => (response_of_exn x, s')
      | (inr m, s') => (Response 200 (CMessage m), s')
      end
  | POST_tasks k b =>
      route k (TaskIn_validate (today e) b) (create_task e)
        (fun t => Response 201 (CTask t)) s
  | GET_task k task_id =>
      route k no_payload (fun _ => get_task task_id)
        (fun t => Response 200 (CTask t)) s
  | PUT_task k task_id b =>
      route k (TaskIn_validate (today e) b) (replace_task e task_id)
        (fun t => Response 200 (CTask t)) s
  | PATCH_task k task_id b =>
      route k (TaskUpdate_validate (today e) b) (update_task e task_id)
        (fun t => Response 200 (CTask t)) s
  | DELETE_task k task_id =>
      route k no_payload (fun _ => delete_task task_id)
        (fun _ => Response 204 CEmpty) s
  | GET_tasks k =>
      route k no_payload (fun _ => list_tasks_simple)
        (fun ts => Response 200 (CTasks ts)) s
  end.

(** The state after a sequence of requests, oldest first. *)
Fixpoint run (s : State) (rs : list (Env * request)) : State :=
  match rs with
  | [] => s
  | (e, r) :: rs' => run (snd (serve e r s)) rs'
  end.

(** The responses to a sequence of requests, oldest first. *)
Fixpoint responses (s : State) (rs : list (Env * request)) : list response :=
  match rs with
  | [] => []
  | (e, r) :: rs' => fst (serve e r s) :: responses (snd (serve e r s)) rs'
  end.

(** The states the process can be in. *)
Definition reachable (s : State) : Prop := exists rs, s = run init rs.

(** The header of a request, for the routes that read one. *)
Definition key_of (r : request) : option (option string) :=
  match r with
  | GET_root => None
  | POST_tasks k _ | GET_task k _ | PUT_task k _ _ | PATCH_task k _ _
  | DELETE_task k _ | GET_tasks k => Some k
  end.

End Service.

(** ** Predicates of the properties *)

(** What [TaskIn] promises of an instance built at date [today]. *)
Definition TaskIn_ok (today : date) (p : TaskIn) : Prop :=
  (4 <= String.length (title p) <= 100)%nat
  /\ match description p with
     | Some d => (String.length d <= 100)%nat
     | None => True
     end
  /\ match due_date p with
     | Some d => today <= d
     | None => True
     end.

(** What a client has to send for a field to be accepted, in the words of
    the interface: a description within the bound, one of the three names
    for [priority] and for [status], a [due_date] that is not past. *)
Definition description_within (hi : nat) (f : field string) : Prop :=
  match f with
  | Val d => (String.length d <= hi)%nat
  | _ => True
  end.

Definition priority_sent_ok (f : field string) : Prop :=
  match f with
  | Unset => True
  | Null => False
  | Val x => x = "low" \/ x = "medium" \/ x = "high"
  end.

Definition status_sent_ok (f : field string) : Prop :=
  match f with
  | Unset => True
  | Null => False
  | Val x => x = "todo" \/ x = "doing" \/ x = "done"
  end.

Definition due_date_not_past (today : date) (f : field date) : Prop :=
  match f with
  | Val d => today <= d
  | _ => True
  end.

Definition unauthorized : response :=
  Response 401 (CDetail "Invalid or missing API key").

(** No key of [DB] occurs twice, the counter has not gone below its start,
    and every key is the id of its record and was handed out by the
    counter. *)
Definition store_inv (s : State) : Prop :=
  NoDup (dict_keys (DB s))
  /\ 1 <= _id_counter s
  /\ forall k t, In (k, t) (DB s) -> id t = k /\ 1 <= k < _id_counter s.

(** The ways a request can change the state. *)
Inductive transition (s : State) : State -> Prop :=
| tr_same : transition s s
| tr_create t :
    id t = _id_counter s ->
    transition s (mkState (dict_setitem (_id_counter s) t (DB s))
                    (_id_counter s + 1))
| tr_write i t :
    dict_get i (DB s) <> None -> id t = i ->
    transition s (mkState (dict_setitem i t (DB s)) (_id_counter s))
| tr_delete i :
    transition s (mkState (dict_delitem i (DB s)) (_id_counter s)).

(** ** Sample requests and states *)

Module Runs.

(** The default key of the module. *)
Definition key : string := "supersecret123".

Definition day10 : Env := mkEnv 10 1000.
Definition day10_later : Env := mkEnv 10 2000.
Definition day11 : Env := mkEnv 11 90000.

Definition only_title (t : string) : Body :=
  mkBody (Val t) Unset Unset Unset Unset.

Definition only_status (x : string) : Body :=
  mkBody Unset Unset Unset (Val x) Unset.

Definition only_description (d : string) : Body :=
  mkBody Unset (Val d) Unset Unset Unset.

Definition title_due (t : string) (d : date) : Body :=
  mkBody (Val t) Unset Unset Unset (Val d).

(** A string of [n] characters. *)
Fixpoint chars (n : nat) : string :=
  match n with
  | O => EmptyString
  | S n' => String "x"%char (chars n')
  end.

Definition written : Task :=
  mkTask (mkTaskIn "Write spec" None medium todo None) 1 1000 1000.

Definition written_due : Task :=
  mkTask (mkTaskIn "Write spec" None medium todo (Some 10)) 1 1000 1000.

Definition proved : Task :=
  mkTask (mkTaskIn "Write proof" (Some "in Rocq") high doing (Some 12))
    1 1000 2000.

Definition proof_body : Body :=
  mkBody (Val "Write proof") (Val "in Rocq") (Val "high") (Val "doing")
    (Val 12).

(** The state after the first task was created. *)
Definition one_task : State := mkState [(1, written)] 2.

Definition one_task_due : State := mkState [(1, written_due)] 2.

End Runs.

Import Runs.

(** ** The date read twice *)

(** The application when the two readings of [date.today()] may differ: the
    body is validated at the date of [ev], and the handler, with the
    constructor of [Task] in it, runs with the clock [eh]. *)
Definition serve_at (API_KEY : string) (ev eh : Env) (r : request)
    (s : State) : response * State :=
  match r with
  | GET_root =>
      match root s with
      | (inl x, s') => (response_of_exn x, s')
      | (inr m, s') => (Response 200 (CMessage m), s')
      end
  | POST_tasks k b =>
      route API_KEY k (TaskIn_validate (today ev) b) (create_task eh)
        (fun t => Response 201 (CTask t)) s
  | GET_task k task_id =>
      route API_KEY k no_payload (fun _ => get_task task_id)
        (fun t => Response 200 (CTask t)) s
  | PUT_task k task_id b =>
      route API_KEY k (TaskIn_validate (today ev) b) (replace_task eh task_id)
        (fun t => Response 200 (CTask t)) s
  | PATCH_task k task_id b =>
      route API_KEY k (TaskUpdate_validate (today ev) b)
        (update_task eh task_id) (fun t => Response 200 (CTask t)) s
  | DELETE_task k task_id =>
      route API_KEY k no_payload (fun _ => delete_task task_id)
        (fun _ => Response 204 CEmpty) s
  | GET_tasks k =>
      route API_KEY k no_payload (fun _ => list_tasks_simple)
        (fun ts => Response 200 (CTasks ts)) s
  end.

(** The state after a sequence of such requests, oldest first. *)
Fixpoint run_at (API_KEY : string) (s : State)
    (rs : list (Env * Env * request)) : State :=
  match rs with
  | [] => s
  | (ev, eh, r) :: rs' => run_at API_KEY (snd (serve_at API_KEY ev eh r s)) rs'
  end.

(** The requests of a sequence with their answers, oldest first. *)
Fixpoint exchanges_at (API_KEY : string) (s : State)
    (rs : list (Env * Env * request)) : list (request * response) :=
  match rs with
  | [] => []
  | (ev, eh, r) :: rs' =>
      (r, fst (serve_at API_KEY ev eh r s))
      :: exchanges_at API_KEY (snd (serve_at API_KEY ev eh r s)) rs'
  end.

(** A POST whose handler ran: it is answered 201, or 500 when [Task]
    raised after [next(_id_counter)]. *)
Definition takes_id (x : request * response) : bool :=
  match fst x with
  | POST_tasks _ _ =>
      (status_code (snd x) =? 201) || (status_code (snd x) =? 500)
  | _ => false
  end.

Definition count_taken (l : list (request * response)) : Z :=
  Z.of_nat (List.length (filter takes_id l)).

(** The date did not move on between the two readings of a request. *)
Definition same_date (x : Env * Env * request) : Prop :=
  today (snd (fst x)) <= today (fst (fst x)).

(** ** What a request does *)

(** The answer and the next state of a request, case by case: nothing is
    written, or a task is created, replaced, updated or deleted. *)
Inductive effect (e : Env) (s : State) : request -> response -> State -> Prop :=
| eff_none r resp :
    status_code resp <> 201 -> status_code resp <> 204 ->
    effect e s r resp s
| eff_create k b p :
    TaskIn_validate (today e) b = inr p ->
    effect e s (POST_tasks k b)
      (Response 201 (CTask (mkTask p (_id_counter s) (now e) (now e))))
      (mkState
         (dict_setitem (_id_counter s)
            (mkTask p (_id_counter s) (now e) (now e)) (DB s))
         (_id_counter s + 1))
| eff_replace k i b p old :
    TaskIn_validate (today e) b = inr p ->
    dict_get i (DB s) = Some old ->
    effect e s (PUT_task k i b)
      (Response 200 (CTask (mkTask p i (created_at old) (now e))))
      (mkState (dict_setitem i (mkTask p i (created_at old) (now e)) (DB s))
         (_id_counter s))
| eff_update k i b p existing t :
    TaskUpdate_validate (today e) b = inr p ->
    dict_get i (DB s) = Some existing ->
    Task_init (today e)
      (set_updated_at (data_update (Task_model_dump existing) p) (now e))
    = inr t ->
    effect e s (PATCH_task k i b) (Response 200 (CTask t))
      (mkState (dict_setitem i t (DB s)) (_id_counter s))
| eff_delete k i :
    dict_contains i (DB s) = true ->
    effect e s (DELETE_task k i) (Response 204 CEmpty)
      (mkState (dict_delitem i (DB s)) (_id_counter s)).

(** The bounds of [TaskIn] that do not depend on the date. *)
Definition Task_bounds (t : Task) : Prop :=
  (4 <= String.length (title t) <= 100)%nat
  /\ match description t with
     | Some d => (String.length d <= 100)%nat
     | None => True
     end.

(** How many of the responses carry the status [c]. *)
Definition count_status (c : Z) (l : list response) : Z :=
  Z.of_nat (List.length (filter (fun r => status_code r =? c) l)).

(** The status codes a route can answer with. *)
Definition statuses (r : request) : list Z :=
  match r with
  | GET_root => [200]
  | POST_tasks _ _ => [201; 401; 422; 500]
  | GET_task _ _ => [200; 401; 404; 422]
  | PUT_task _ _ _ => [200; 401; 404; 422; 500]
  | PATCH_task _ _ _ => [200; 401; 404; 422; 500]
  | DELETE_task _ _ => [204; 401; 404; 422]
  | GET_tasks _ => [200; 401; 422]
  end.

(** The routes that only read. *)
Definition reads_only (r : request) : bool :=
  match r with
  | GET_root | GET_task _ _ | GET_tasks _ => true
  | _ => false
  end.

(** The routes that leave the set of ids as it is. *)
Definition keeps_ids (r : request) : bool :=
  match r with
  | POST_tasks _ _ | DELETE_task _ _ => false
  | _ => true
  end.

(** The id in the path of a request, when it has one. *)
Definition path_id (r : request) : option Z :=
  match r with
  | GET_task _ i | PUT_task _ i _ | PATCH_task _ i _ | DELETE_task _ i =>
      Some i
  | _ => None
  end.

(** What a partial payload asks of a field of the record: a key left out
    keeps the value, a key sent replaces it. *)
Definition asked {A} (f : field A) (old new : option A) : Prop :=
  match f with
  | Unset => new = old
  | Null => new = None
  | Val a => new = Some a
  end.



(** What [TaskUpdate] accepts, key by key. *)
Definition update_body_ok (today : date) (b : Body) : Prop :=
  match b_title b with
  | Val x => (1 <= String.length x <= 100)%nat
  | _ => True
  end
  /\ match b_description b with
     | Val d => (String.length d <= 500)%nat
     | _ => True
     end
  /\ match b_priority b with
     | Val x => x = "low" \/ x = "medium" \/ x = "high"
     | _ => True
     end
  /\ match b_status b with
     | Val x => x = "todo" \/ x = "doing" \/ x = "done"
     | _ => True
     end
  /\ match b_due_date b with
     | Val d => today <= d
     | _ => True
     end.

(** What [TaskIn] accepts, key by key. *)
Definition create_body_ok (today : date) (b : Body) : Prop :=
  match b_title b with
  | Val x => (4 <= String.length x <= 100)%nat
  | _ => False
  end
  /\ description_within 100 (b_description b)
  /\ priority_sent_ok (b_priority b)
  /\ status_sent_ok (b_status b)
  /\ due_date_not_past today (b_due_date b).

(** ** More sample requests and states *)

Module Samples.

Definition second : Task :=
  mkTask (mkTaskIn "Write proof" None medium todo None) 2 2000 2000.

Definition two_tasks : State := mkState [(1, written); (2, second)] 3.

Definition written_done : Task :=
  mkTask (mkTaskIn "Write spec" None medium done None) 1 1000 2000.

Definition written_no_due : Task :=
  mkTask (mkTaskIn "Write spec" None medium todo None) 1 1000 90000.


Definition null_title : Body := mkBody Null Unset Unset Unset Unset.

Definition proved_at_once : Task :=
  mkTask (mkTaskIn "Write proof" (Some "in Rocq") high doing (Some 12))
    1 1000 1000.

Definition proved_late : Task :=
  mkTask (mkTaskIn "Write proof" (Some "in Rocq") high doing (Some 12))
    1 1000 90000.

End Samples.

Import Samples.

(** ** Facts about the dictionary *)

Lemma dict_contains_get k d :
  dict_contains k d = true <-> dict_get k d <> None.
Proof.
  induction d as [|[k' v] r IH]; simpl.
  - split; [discriminate | intros H; now elim H].
  - destruct (k =? k'); [split; [discriminate | reflexivity] | exact IH].
Qed.

Lemma dict_contains_false k d :
  dict_contains k d = false <-> dict_get k d = None.
Proof.
  induction d as [|[k' v] r IH]; simpl.
  - split; reflexivity.
  - destruct (k =? k'); [split; discriminate | exact IH].
Qed.

Lemma dict_get_In k d t : dict_get k d = Some t -> In (k, t) d.
Proof.
  induction d as [|[k' v] r IH]; simpl; [discriminate|].
  destruct (Z.eqb_spec k k') as [->|Hne].
  - intros [= ->]. now left.
  - intros H. right. now apply IH.
Qed.

Lemma dict_get_keys k d : dict_get k d <> None <-> In k (dict_keys d).
Proof.
  induction d as [|[k' v] r IH]; simpl.
  - split; [intros H; now elim H | intros []].
  - destruct (Z.eqb_spec k k') as [->|Hne].
    + split; [now left | discriminate].
    + rewrite IH. split; [now right | intros [E|H]; [congruence | exact H]].
Qed.

Lemma dict_get_setitem_same k v d : dict_get k (dict_setitem k v d) = Some v.
Proof.
  induction d as [|[k' v'] r IH]; simpl.
  - now rewrite Z.eqb_refl.
  - destruct (Z.eqb_spec k k') as [->|Hne]; simpl.
    + now rewrite Z.eqb_refl.
    + destruct (Z.eqb_spec k k'); [contradiction | exact IH].
Qed.

Lemma dict_get_setitem_other k k' v d :
  k <> k' -> dict_get k (dict_setitem k' v d) = dict_get k d.
Proof.
  intros Hne. induction d as [|[k0 v0] r IH]; simpl.
  - destruct (Z.eqb_spec k k'); [contradiction | reflexivity].
  - destruct (Z.eqb_spec k' k0) as [->|Hne0]; simpl.
    + destruct (Z.eqb_spec k k0); [contradiction | reflexivity].
    + destruct (k =? k0); [reflexivity | exact IH].
Qed.

Lemma In_setitem k v d k0 t0 :
  In (k0, t0) (dict_setitem k v d) -> (k0, t0) = (k, v) \/ In (k0, t0) d.
Proof.
  induction d as [|[k' v'] r IH]; simpl.
  - intros [E|[]]. left. now symmetry.
  - destruct (k =? k'); simpl.
    + intros [E|H]; [left; now symmetry | right; now right].
    + intros [E|H]; [right; now left |].
      destruct (IH H) as [E|H']; [now left | right; now right].
Qed.

Lemma keys_setitem k v d k0 :
  In k0 (dict_keys (dict_setitem k v d)) <-> k0 = k \/ In k0 (dict_keys d).
Proof.
  induction d as [|[k' v'] r IH]; simpl.
  - split; [intros [E|[]]; left; now symmetry | intros [E|[]]; left; now symmetry].
  - destruct (Z.eqb_spec k k') as [->|Hne]; simpl.
    + split; [intros [E|H]; [right; now left | right; now right]
             | intros [E|[E|H]]; [left; now symmetry | now left | now right]].
    + rewrite IH. tauto.
Qed.

Lemma NoDup_setitem k v d :
  NoDup (dict_keys d) -> NoDup (dict_keys (dict_setitem k v d)).
Proof.
  induction d as [|[k' v'] r IH]; simpl; intros Hnd.
  - constructor; [intros [] | constructor].
  - inversion Hnd as [|? ? Hnotin Hnd']; subst.
    destruct (Z.eqb_spec k k') as [->|Hne]; simpl.
    + now constructor.
    + constructor; [|now apply IH].
      fold (dict_keys (dict_setitem k v r)). rewrite keys_setitem.
      intros [E|H]; [now apply Hne | now apply Hnotin].
Qed.

Lemma In_delitem k d k0 t0 : In (k0, t0) (dict_delitem k d) -> In (k0, t0) d.
Proof.
  induction d as [|[k' v'] r IH]; simpl; [intros []|].
  destruct (k =? k'); simpl.
  - intros H. now right.
  - intros [E|H]; [now left | right; now apply IH].
Qed.

Lemma keys_delitem k d k0 :
  In k0 (dict_keys (dict_delitem k d)) -> In k0 (dict_keys d).
Proof.
  induction d as [|[k' v'] r IH]; simpl; [intros []|].
  destruct (k =? k'); simpl.
  - intros H. now right.
  - intros [E|H]; [now left | right; now apply IH].
Qed.

Lemma NoDup_delitem k d :
  NoDup (dict_keys d) -> NoDup (dict_keys (dict_delitem k d)).
Proof.
  induction d as [|[k' v'] r IH]; simpl; intros Hnd; [constructor|].
  inversion Hnd as [|? ? Hnotin Hnd']; subst.
  destruct (k =? k'); simpl; [exact Hnd'|].
  constructor; [|now apply IH].
  intros H. apply Hnotin. now apply (keys_delitem k).
Qed.

Lemma dict_get_delitem_same k d :
  NoDup (dict_keys d) -> dict_get k (dict_delitem k d) = None.
Proof.
  induction d as [|[k' v'] r IH]; simpl; intros Hnd; [reflexivity|].
  inversion Hnd as [|? ? Hnotin Hnd']; subst.
  destruct (Z.eqb_spec k k') as [->|Hne]; simpl.
  - destruct (dict_get k' r) eqn:E; [|reflexivity].
    elim Hnotin. apply dict_get_keys. congruence.
  - destruct (Z.eqb_spec k k'); [contradiction | now apply IH].
Qed.

Lemma dict_get_delitem_other k k' d :
  k <> k' -> dict_get k (dict_delitem k' d) = dict_get k d.
Proof.
  intros Hne. induction d as [|[k0 v0] r IH]; simpl; [reflexivity|].
  destruct (Z.eqb_spec k' k0) as [->|Hne0]; simpl.
  - destruct (Z.eqb_spec k k0); [contradiction | reflexivity].
  - destruct (k =? k0); [reflexivity | exact IH].
Qed.

Lemma dict_get_delitem_None k i d :
  dict_get k d = None -> dict_get k (dict_delitem i d) = None.
Proof.
  induction d as [|[k0 v0] r IH]; simpl; [reflexivity|].
  destruct (Z.eqb_spec k k0) as [->|Hne]; [discriminate|].
  intros H. destruct (i =? k0); simpl; [exact H|].
  destruct (Z.eqb_spec k k0); [contradiction | now apply IH].
Qed.

(** ** Facts about validation *)

Lemma str_constraints_Some lo hi s r :
  str_constraints lo hi s = Some r <->
  r = s /\ (lo <= String.length s <= hi)%nat.
Proof.
  unfold str_constraints.
  destruct (Nat.leb_spec lo (String.length s));
    destruct (Nat.leb_spec (String.length s) hi); simpl;
    (split; [intros [= <-] | intros [-> ?]]); try (split; [reflexivity|]);
    try reflexivity; lia.
Qed.

Lemma str_constraints_None lo hi s :
  str_constraints lo hi s = None <->
  (String.length s < lo \/ hi < String.length s)%nat.
Proof.
  unfold str_constraints.
  destruct (Nat.leb_spec lo (String.length s));
    destruct (Nat.leb_spec (String.length s) hi); simpl;
    (split; [intros H'; try discriminate | intros H'; try reflexivity]); lia.
Qed.

Lemma due_not_past_Some today v r :
  TaskIn_due_not_past today v = Some r <->
  r = v /\ match v with Some d => today <= d | None => True end.
Proof.
  unfold TaskIn_due_not_past. destruct v as [d|].
  - destruct (Z.ltb_spec d today);
      (split; [intros [= <-] | intros [-> ?]]); try (split; [reflexivity|]);
      try reflexivity; lia.
  - split; [intros [= <-]; now split | intros [-> _]; reflexivity].
Qed.

Lemma TaskUpdate_due_not_past_eq today v :
  TaskUpdate_due_not_past today v = TaskIn_due_not_past today v.
Proof. reflexivity. Qed.

Lemma TaskIn_validate_inr today b p :
  TaskIn_validate today b = inr p ->
  required (str_constraints 4 100) (b_title b) = Some (title p)
  /\ (exists d, optional (str_constraints 0 100) (b_description b) = Some d
                /\ description p = to_option d)
  /\ defaulted medium literal_Priority (b_priority b) = Some (priority p)
  /\ defaulted todo literal_Status (b_status b) = Some (status p)
  /\ (exists dd, validated (TaskIn_due_not_past today) (b_due_date b) = Some dd
                 /\ due_date p = to_option dd).
Proof.
  unfold TaskIn_validate.
  destruct (required _ (b_title b)) as [t|]; [|intros H; discriminate H].
  destruct (optional _ (b_description b)) as [d|];
    [|intros H; discriminate H].
  destruct (defaulted medium _ (b_priority b)) as [pr|];
    [|intros H; discriminate H].
  destruct (defaulted todo _ (b_status b)) as [st|];
    [|intros H; discriminate H].
  destruct (validated _ (b_due_date b)) as [dd|];
    [|intros H; discriminate H].
  intros [= <-]. simpl. repeat split; eauto.
Qed.

Lemma TaskIn_validate_ok today b p :
  TaskIn_validate today b = inr p -> TaskIn_ok today p.
Proof.
  intros H. apply TaskIn_validate_inr in H.
  destruct H as (Ht & (d & Hd & Hd') & _ & _ & (dd & Hdd & Hdd')).
  unfold TaskIn_ok. repeat split.
  - destruct (b_title b); simpl in Ht; try discriminate.
    apply str_constraints_Some in Ht. destruct Ht as [-> Ht]. lia.
  - destruct (b_title b); simpl in Ht; try discriminate.
    apply str_constraints_Some in Ht. destruct Ht as [-> Ht]. lia.
  - rewrite Hd'. destruct (b_description b) as [| |x]; simpl in Hd.
    + injection Hd as <-. exact I.
    + injection Hd as <-. exact I.
    + destruct (str_constraints 0 100 x) as [x'|] eqn:E; simpl in Hd;
        [|discriminate]. injection Hd as <-. simpl.
      apply str_constraints_Some in E. destruct E as [-> E]. lia.
  - rewrite Hdd'. destruct (b_due_date b) as [| |x]; simpl in Hdd.
    + injection Hdd as <-. exact I.
    + injection Hdd as <-. exact I.
    + destruct (x <? today) eqn:E; [discriminate|]. injection Hdd as <-.
      simpl. apply Z.ltb_ge in E. exact E.
Qed.

(** A payload that passed [TaskIn] passes [Task] at the same date: building
    the record in [create_task] and [replace_task] does not raise. *)
Lemma Task_init_ok today p i c u :
  TaskIn_ok today p ->
  Task_init today (TaskIn_model_dump i c u p) = inr (mkTask p i c u).
Proof.
  intros (Ht & Hd & Hdd). unfold Task_init, TaskIn_model_dump. simpl.
  assert (E1 : str_constraints 4 100 (title p) = Some (title p))
    by (apply str_constraints_Some; split; [reflexivity | exact Ht]).
  rewrite E1.
  assert (E2 : or_none (str_constraints 0 100) (description p)
               = Some (description p)).
  { destruct (description p) as [d|]; simpl; [|reflexivity].
    assert (E : str_constraints 0 100 d = Some d)
      by (apply str_constraints_Some; split; [reflexivity | lia]).
    now rewrite E. }
  rewrite E2.
  assert (E3 : TaskIn_due_not_past today (due_date p) = Some (due_date p))
    by (apply due_not_past_Some; split; [reflexivity | exact Hdd]).
  rewrite E3. destruct p; reflexivity.
Qed.

Lemma In_err {A} x l (o : option A) : In x (err l o) -> x = l /\ o = None.
Proof. destruct o; simpl; [intros [] | intros [<-|[]]; now split]. Qed.

Lemma optional_description_accepts hi f :
  description_within hi f ->
  optional (str_constraints 0 hi) f = Some f.
Proof.
  destruct f as [| |d]; simpl; intros H; try reflexivity.
  assert (E : str_constraints 0 hi d = Some d)
    by (apply str_constraints_Some; split; [reflexivity | lia]).
  now rewrite E.
Qed.

Lemma defaulted_priority_accepts f :
  priority_sent_ok f ->
  exists p, defaulted medium literal_Priority f = Some p.
Proof.
  destruct f as [| |x]; simpl; [eauto | intros [] |].
  intros [ -> | [ -> | -> ] ]; eexists; reflexivity.
Qed.

Lemma defaulted_status_accepts f :
  status_sent_ok f ->
  exists p, defaulted todo literal_Status f = Some p.
Proof.
  destruct f as [| |x]; simpl; [eauto | intros [] |].
  intros [ -> | [ -> | -> ] ]; eexists; reflexivity.
Qed.

Lemma validated_due_date_accepts today f :
  due_date_not_past today f ->
  validated (TaskIn_due_not_past today) f = Some f.
Proof.
  destruct f as [| |d]; simpl; intros H; try reflexivity.
  destruct (Z.ltb_spec d today); [lia | reflexivity].
Qed.

Lemma validated_due_date_rejects (today d : date) :
  d < today -> validated (TaskIn_due_not_past today) (Val d) = None.
Proof.
  intros H. simpl. destruct (Z.ltb_spec d today); [reflexivity | lia].
Qed.

(** A body with a title of 4 to 100 characters whose other keys are
    acceptable is a [TaskIn]. *)
Lemma TaskIn_validate_accepts today b t :
  b_title b = Val t ->
  (4 <= String.length t <= 100)%nat ->
  description_within 100 (b_description b) ->
  priority_sent_ok (b_priority b) ->
  status_sent_ok (b_status b) ->
  due_date_not_past today (b_due_date b) ->
  exists p, TaskIn_validate today b = inr p
            /\ title p = t
            /\ description p = to_option (b_description b)
            /\ due_date p = to_option (b_due_date b).
Proof.
  intros Ht Hlen Hd Hp Hs Hdd. unfold TaskIn_validate.
  rewrite Ht. simpl.
  assert (E : str_constraints 4 100 t = Some t)
    by (apply str_constraints_Some; split; [reflexivity | exact Hlen]).
  rewrite E, (optional_description_accepts _ _ Hd),
    (validated_due_date_accepts _ _ Hdd).
  destruct (defaulted_priority_accepts _ Hp) as [p ->].
  destruct (defaulted_status_accepts _ Hs) as [st ->].
  eexists. split; [reflexivity|]. simpl. repeat split.
Qed.

(** A title shorter than 4 characters is a validation error. *)
Lemma TaskIn_validate_title_short today b t :
  b_title b = Val t ->
  (String.length t < 4)%nat ->
  exists errors, TaskIn_validate today b = inl errors
                 /\ In "body.title" errors.
Proof.
  intros Ht Hlen. unfold TaskIn_validate. rewrite Ht. simpl.
  assert (E : str_constraints 4 100 t = None)
    by (apply str_constraints_None; now left).
  rewrite E. eexists. split; [reflexivity | now left].
Qed.

(** A description over the bound of the model is a validation error: 100
    characters for [TaskIn], 500 for [TaskUpdate]. *)
Lemma TaskIn_validate_description_long today b d :
  b_description b = Val d ->
  (100 < String.length d)%nat ->
  exists errors, TaskIn_validate today b = inl errors
                 /\ In "body.description" errors.
Proof.
  intros Hb Hlen. unfold TaskIn_validate. rewrite Hb. simpl.
  assert (E : str_constraints 0 100 d = None)
    by (apply str_constraints_None; now right).
  rewrite E. simpl.
  destruct (required _ _); eexists; (split; [reflexivity|]); simpl; tauto.
Qed.

Lemma TaskUpdate_validate_description_long today b d :
  b_description b = Val d ->
  (500 < String.length d)%nat ->
  exists errors, TaskUpdate_validate today b = inl errors
                 /\ In "body.description" errors.
Proof.
  intros Hb Hlen. unfold TaskUpdate_validate. rewrite Hb. simpl.
  assert (E : str_constraints 0 500 d = None)
    by (apply str_constraints_None; now right).
  rewrite E. simpl.
  destruct (optional (str_constraints 1 100) _); eexists;
    (split; [reflexivity|]); simpl; tauto.
Qed.

(** A [due_date] before today is a validation error of either model. *)
Lemma TaskIn_validate_past today b d :
  b_due_date b = Val d -> d < today ->
  exists errors, TaskIn_validate today b = inl errors
                 /\ In "body.due_date" errors.
Proof.
  intros Hb Hd. unfold TaskIn_validate.
  rewrite Hb, (validated_due_date_rejects _ _ Hd).
  destruct (required _ _), (optional _ _), (defaulted medium _ _),
    (defaulted todo _ _); eexists; (split; [reflexivity|]); simpl; tauto.
Qed.

Lemma TaskUpdate_validate_past today b d :
  b_due_date b = Val d -> d < today ->
  exists errors, TaskUpdate_validate today b = inl errors
                 /\ In "body.due_date" errors.
Proof.
  intros Hb Hd. unfold TaskUpdate_validate.
  rewrite Hb. change (TaskUpdate_due_not_past today)
    with (TaskIn_due_not_past today).
  rewrite (validated_due_date_rejects _ _ Hd).
  destruct (optional (str_constraints 1 100) _),
    (optional (str_constraints 0 500) _), (optional literal_Priority _),
    (optional literal_Status _); eexists; (split; [reflexivity|]); simpl;
    tauto.
Qed.

(** The record that [Task] builds carries the keywords it was given. *)
Lemma Task_init_inr today data t :
  Task_init today data = inr t ->
  id t = d_id data
  /\ created_at t = d_created_at data
  /\ updated_at t = d_updated_at data
  /\ d_title data = Some (title t)
  /\ d_description data = description t
  /\ d_priority data = Some (priority t)
  /\ d_status data = Some (status t)
  /\ d_due_date data = due_date t.
Proof.
  unfold Task_init.
  destruct (d_title data) as [x|]; simpl; [|intros H; discriminate H].
  destruct (str_constraints 4 100 x) as [x'|] eqn:Ex;
    [|intros H; discriminate H].
  apply str_constraints_Some in Ex. destruct Ex as [-> _].
  destruct (or_none _ (d_description data)) as [d'|] eqn:Ed;
    [|intros H; discriminate H].
  destruct (d_priority data) as [pr|]; simpl; [|intros H; discriminate H].
  destruct (d_status data) as [st|]; simpl; [|intros H; discriminate H].
  destruct (TaskIn_due_not_past today (d_due_date data)) as [dd'|] eqn:Edd;
    [|intros H; discriminate H].
  intros [= <-]. simpl.
  apply due_not_past_Some in Edd. destruct Edd as [-> _].
  assert (d_description data = d').
  { destruct (d_description data) as [y|]; simpl in Ed.
    - destruct (str_constraints 0 100 y) as [y'|] eqn:Ey; simpl in Ed;
        [|discriminate]. apply str_constraints_Some in Ey.
      destruct Ey as [-> _]. now injection Ed.
    - now injection Ed. }
  repeat split; assumption.
Qed.

(** [Task] refuses a title shorter than 4 characters and a description
    longer than 100. *)
Lemma Task_init_rejects today data :
  match d_title data with
  | Some t => (String.length t < 4)%nat
  | None => False
  end
  \/ match d_description data with
     | Some d => (100 < String.length d)%nat
     | None => False
     end ->
  exists errors, Task_init today data = inl (ValidationError errors).
Proof.
  unfold Task_init. intros [H|H].
  - destruct (d_title data) as [t|]; [|contradiction]. simpl.
    assert (E : str_constraints 4 100 t = None)
      by (apply str_constraints_None; now left).
    rewrite E. eexists. reflexivity.
  - destruct (d_description data) as [d|]; [|contradiction]. simpl.
    assert (E : str_constraints 0 100 d = None)
      by (apply str_constraints_None; now right).
    rewrite E. simpl.
    destruct (not_none (str_constraints 4 100) (d_title data));
      eexists; reflexivity.
Qed.

(** [Task] refuses a [due_date] before today. *)
Lemma Task_init_past (today : date) data (d : date) :
  d_due_date data = Some d -> d < today ->
  exists errors, Task_init today data = inl (ValidationError errors)
                 /\ In "due_date" errors.
Proof.
  unfold Task_init. intros Hd Hlt. rewrite Hd.
  assert (E : TaskIn_due_not_past today (Some d) = None)
    by (simpl; destruct (Z.ltb_spec d today); [reflexivity | lia]).
  rewrite E.
  destruct (not_none (str_constraints 4 100) _), (or_none _ _),
    (not_none Some (d_priority data)), (not_none Some (d_status data));
    eexists; (split; [reflexivity|]); simpl; tauto.
Qed.

(** A key that was not sent is not set in the validated partial payload. *)
Lemma TaskUpdate_validate_inr today b p :
  TaskUpdate_validate today b = inr p ->
  optional (str_constraints 1 100) (b_title b) = Some (u_title p)
  /\ optional (str_constraints 0 500) (b_description b)
     = Some (u_description p)
  /\ optional literal_Priority (b_priority b) = Some (u_priority p)
  /\ optional literal_Status (b_status b) = Some (u_status p)
  /\ validated (TaskUpdate_due_not_past today) (b_due_date b)
     = Some (u_due_date p).
Proof.
  unfold TaskUpdate_validate.
  destruct (optional (str_constraints 1 100) _); [|intros H; discriminate H].
  destruct (optional (str_constraints 0 500) _); [|intros H; discriminate H].
  destruct (optional literal_Priority _); [|intros H; discriminate H].
  destruct (optional literal_Status _); [|intros H; discriminate H].
  destruct (validated _ _); [|intros H; discriminate H].
  intros [= <-]. simpl. repeat split.
Qed.

(** ** The handlers, unfolded *)

Lemma create_task_eq e p s :
  create_task e p s =
  match Task_init (today e)
          (TaskIn_model_dump (_id_counter s) (now e) (now e) p) with
  | inl x => (inl x, mkState (DB s) (_id_counter s + 1))
  | inr t => (inr t, mkState (dict_setitem (_id_counter s) t (DB s))
                       (_id_counter s + 1))
  end.
Proof.
  unfold create_task, bind, next_id, lift, DB_setitem, ret, raise. simpl.
  destruct (Task_init _ _); reflexivity.
Qed.

Lemma get_task_eq i s :
  get_task i s =
  match dict_get i (DB s) with
  | Some t => (inr t, s)
  | None => (inl not_found, s)
  end.
Proof.
  unfold get_task, bind, DB_get, ret, raise.
  destruct (dict_get i (DB s)); reflexivity.
Qed.

Lemma replace_task_eq e i p s :
  replace_task e i p s =
  match dict_get i (DB s) with
  | None => (inl not_found, s)
  | Some old =>
      match Task_init (today e)
              (TaskIn_model_dump i (created_at old) (now e) p) with
      | inl x => (inl x, s)
      | inr t => (inr t, mkState (dict_setitem i t (DB s)) (_id_counter s))
      end
  end.
Proof.
  unfold replace_task, bind, DB_contains, DB_getitem, lift, DB_setitem, ret,
    raise.
  destruct (dict_get i (DB s)) as [old|] eqn:E.
  - assert (C : dict_contains i (DB s) = true)
      by (apply dict_contains_get; congruence).
    rewrite C. simpl. rewrite E. destruct (Task_init _ _); reflexivity.
  - apply dict_contains_false in E. rewrite E. reflexivity.
Qed.

Lemma update_task_eq e i p s :
  update_task e i p s =
  match dict_get i (DB s) with
  | None => (inl not_found, s)
  | Some existing =>
      match Task_init (today e)
              (set_updated_at (data_update (Task_model_dump existing) p)
                 (now e)) with
      | inl x => (inl x, s)
      | inr t => (inr t, mkState (dict_setitem i t (DB s)) (_id_counter s))
      end
  end.
Proof.
  unfold update_task, bind, DB_contains, DB_getitem, lift, DB_setitem, ret,
    raise.
  destruct (dict_get i (DB s)) as [old|] eqn:E.
  - assert (C : dict_contains i (DB s) = true)
      by (apply dict_contains_get; congruence).
    rewrite C. simpl. rewrite E. destruct (Task_init _ _); [reflexivity|].
    simpl. now rewrite dict_get_setitem_same.
  - apply dict_contains_false in E. rewrite E. reflexivity.
Qed.

Lemma delete_task_eq i s :
  delete_task i s =
  if dict_contains i (DB s)
  then (inr tt, mkState (dict_delitem i (DB s)) (_id_counter s))
  else (inl not_found, s).
Proof.
  unfold delete_task, bind, DB_contains, DB_delitem, ret, raise.
  destruct (dict_contains i (DB s)) eqn:E; simpl; [rewrite E|]; reflexivity.
Qed.

(** ** Properties of the service *)

Section Properties.

Variable API_KEY : string.

Lemma route_missing {P A} (payload : list loc + P) (h : P -> M A) ok s :
  route API_KEY None payload h ok s =
  (Response 422 (CErrors ("header.x-api-key" :: body_errors payload)), s).
Proof. reflexivity. Qed.

Lemma route_wrong {P A} v (payload : list loc + P) (h : P -> M A) ok s :
  v <> API_KEY -> route API_KEY (Some v) payload h ok s = (unauthorized, s).
Proof.
  intros Hne. unfold route, solve_require_key, require_key.
  destruct (String.eqb_spec v API_KEY); [contradiction | reflexivity].
Qed.

Lemma route_authorised {P A} (payload : list loc + P) (h : P -> M A) ok s :
  route API_KEY (Some API_KEY) payload h ok s =
  match payload with
  | inl errors => (Response 422 (CErrors errors), s)
  | inr p =>
      match h p s with
      | (inl e, s') => (response_of_exn e, s')
      | (inr a, s') => (ok a, s')
      end
  end.
Proof.
  unfold route, solve_require_key, require_key.
  now rewrite String.eqb_refl.
Qed.

(** Whatever the header, a route either stops before the handler, leaving
    the state as it is, or runs the handler on the validated payload. *)
Lemma route_cases {P A} k (payload : list loc + P) (h : P -> M A) ok s :
  (exists r, route API_KEY k payload h ok s = (r, s)
             /\ (status_code r = 401 \/ status_code r = 422))
  \/ (exists p, payload = inr p
                /\ route API_KEY k payload h ok s =
                   match h p s with
                   | (inl e, s') => (response_of_exn e, s')
                   | (inr a, s') => (ok a, s')
                   end).
Proof.
  destruct k as [v|].
  - destruct (String.eqb_spec v API_KEY) as [->|Hne].
    + rewrite route_authorised. destruct payload as [errors|p].
      * left. eexists. split; [reflexivity | now right].
      * right. exists p. split; reflexivity.
    + left. exists unauthorized. split; [now apply route_wrong | now left].
  - left. eexists. split; [apply route_missing | now right].
Qed.







(** A request stopped by validation: whatever the header, the state is as
    it was. *)
Lemma route_invalid_state {P A} k (errors : list loc) (h : P -> M A) ok s :
  snd (route API_KEY k (inl errors) h ok s) = s.
Proof.
  destruct (route_cases k (inl errors) h ok s)
    as [(r & -> & _)|(p & Hp & _)]; [reflexivity | discriminate Hp].
Qed.

(** The same request, in full: it is answered 401 or 422, and 422 with the
    errors of the body when it carries the key. *)
Lemma route_invalid {P A} k (errors : list loc) (h : P -> M A) ok s :
  snd (route API_KEY k (inl errors) h ok s) = s
  /\ (status_code (fst (route API_KEY k (inl errors) h ok s)) = 401
      \/ status_code (fst (route API_KEY k (inl errors) h ok s)) = 422)
  /\ (k = Some API_KEY ->
      fst (route API_KEY k (inl errors) h ok s)
      = Response 422 (CErrors errors)).
Proof.
  split; [apply route_invalid_state|]. split.
  - destruct (route_cases k (inl errors) h ok s)
      as [(r & -> & Hr)|(p & Hp & _)]; [exact Hr | discriminate Hp].
  - intros ->. now rewrite route_authorised.
Qed.

Ltac stopped_by errors Hin :=
  match goal with
  | |- context [route ?key ?k (inl ?x) ?h ?ok ?s] =>
      let H1 := fresh in
      let H2 := fresh in
      let H3 := fresh in
      destruct (route_invalid k x h ok s) as (H1 & H2 & H3);
      split; [exact H1|]; split; [exact H2|];
      intros Hk; exists errors; split; [now apply H3 | exact Hin]
  end.

(** C3: a create request whose title has fewer than 4 characters stores
    nothing, whatever its header, and is answered 422 when it carries the
    key; a create request with the key whose title has 4 to 100 characters
    and whose other fields are acceptable is answered 201 with the new
    task, which is stored under the next id. *)
Theorem create_title_length (e : Env) (b : Body) (s : State) (t : string) :
  b_title b = Val t ->
  ((String.length t < 4)%nat ->
     (forall k, snd (serve API_KEY e (POST_tasks k b) s) = s)
     /\ exists errors,
          serve API_KEY e (POST_tasks (Some API_KEY) b) s
          = (Response 422 (CErrors errors), s)
          /\ In "body.title" errors)
  /\ ((4 <= String.length t <= 100)%nat ->
      description_within 100 (b_description b) ->
      priority_sent_ok (b_priority b) ->
      status_sent_ok (b_status b) ->
      due_date_not_past (today e) (b_due_date b) ->
      exists task,
        serve API_KEY e (POST_tasks (Some API_KEY) b) s
        = (Response 201 (CTask task),
           mkState (dict_setitem (_id_counter s) task (DB s))
             (_id_counter s + 1))
        /\ title task = t
        /\ id task = _id_counter s).
Proof.
  intros Ht. split.
  - intros Hlen.
    destruct (TaskIn_validate_title_short (today e) b t Ht Hlen)
      as (errors & Hv & Hin).
    simpl. rewrite Hv. split.
    + intros k. apply route_invalid_state.
    + exists errors. split; [apply route_authorised | exact Hin].
  - intros Hlen Hd Hp Hs Hdd.
    destruct (TaskIn_validate_accepts (today e) b t Ht Hlen Hd Hp Hs Hdd)
      as (p & Hv & Htitle & _).
    simpl. rewrite Hv, route_authorised, create_task_eq.
    rewrite (Task_init_ok _ _ _ _ _ (TaskIn_validate_ok _ _ _ Hv)).
    eexists. split; [reflexivity|]. simpl. split; [exact Htitle | reflexivity].
Qed.

(** C4: a create, replace or partial-update request whose [due_date] is
    before today fails before the handler, in whatever state and for
    whatever id: the state is as it was, the answer is 401 or 422 and never
    a success, and with the key it is 422 with an error on [due_date]; a
    [due_date] of today or later passes both validators and is not among
    the errors of either model. *)
Theorem past_due_date_rejected (e : Env) (b : Body) (s : State)
    (task_id : Z) (d : date) :
  b_due_date b = Val d ->
  (d < today e ->
     forall k r,
       r = POST_tasks k b \/ r = PUT_task k task_id b
       \/ r = PATCH_task k task_id b ->
       snd (serve API_KEY e r s) = s
       /\ (status_code (fst (serve API_KEY e r s)) = 401
           \/ status_code (fst (serve API_KEY e r s)) = 422)
       /\ (k = Some API_KEY ->
           exists errors,
             fst (serve API_KEY e r s) = Response 422 (CErrors errors)
             /\ In "body.due_date" errors))
  /\ (today e <= d ->
      TaskIn_due_not_past (today e) (Some d) = Some (Some d)
      /\ TaskUpdate_due_not_past (today e) (Some d) = Some (Some d)
      /\ ~ In "body.due_date" (body_errors (TaskIn_validate (today e) b))
      /\ ~ In "body.due_date"
             (body_errors (TaskUpdate_validate (today e) b))).
Proof.
  intros Hb. split.
  - intros Hd k r Hr.
    destruct (TaskIn_validate_past (today e) b d Hb Hd) as (e1 & Hv1 & Hin1).
    destruct (TaskUpdate_validate_past (today e) b d Hb Hd)
      as (e2 & Hv2 & Hin2).
    destruct Hr as [ -> | [ -> | -> ] ]; simpl.
    + rewrite Hv1. stopped_by e1 Hin1.
    + rewrite Hv1. stopped_by e1 Hin1.
    + rewrite Hv2. stopped_by e2 Hin2.
  - intros Hd.
    assert (E : TaskIn_due_not_past (today e) (Some d) = Some (Some d))
      by (apply due_not_past_Some; split; [reflexivity | exact Hd]).
    assert (V : validated (TaskIn_due_not_past (today e)) (b_due_date b)
                = Some (Val d)) by (rewrite Hb; simpl in *; now rewrite E).
    repeat split; try exact E.
    + unfold TaskIn_validate. rewrite V.
      destruct (required _ _), (optional _ _), (defaulted medium _ _),
        (defaulted todo _ _); simpl; intros H;
        repeat (destruct H as [H|H]; [discriminate H|]); exact H.
    + unfold TaskUpdate_validate.
      change (TaskUpdate_due_not_past (today e))
        with (TaskIn_due_not_past (today e)). rewrite V.
      destruct (optional (str_constraints 1 100) _),
        (optional (str_constraints 0 500) _), (optional literal_Priority _),
        (optional literal_Status _); simpl; intros H;
        repeat (destruct H as [H|H]; [discriminate H|]); exact H.
Qed.

(** What a 2xx answer of a writing route says about the request. *)
Lemma POST_created_inv e k b s t s' :
  serve API_KEY e (POST_tasks k b) s = (Response 201 (CTask t), s') ->
  exists p,
    TaskIn_validate (today e) b = inr p
    /\ t = mkTask p (_id_counter s) (now e) (now e)
    /\ s' = mkState (dict_setitem (_id_counter s) t (DB s))
              (_id_counter s + 1).
Proof.
  simpl.
  destruct (route_cases k (TaskIn_validate (today e) b) (create_task e)
              (fun t => Response 201 (CTask t)) s)
    as [(r & -> & Hr)|(p & Hp & ->)].
  - intros [= -> _]. simpl in Hr. lia.
  - rewrite create_task_eq.
    rewrite (Task_init_ok _ _ _ _ _ (TaskIn_validate_ok _ _ _ Hp)).
    intros [= <- <-]. exists p. repeat split. exact Hp.
Qed.

Lemma PUT_ok_inv e k i b s t s' :
  serve API_KEY e (PUT_task k i b) s = (Response 200 (CTask t), s') ->
  exists p old,
    TaskIn_validate (today e) b = inr p
    /\ dict_get i (DB s) = Some old
    /\ t = mkTask p i (created_at old) (now e)
    /\ s' = mkState (dict_setitem i t (DB s)) (_id_counter s).
Proof.
  simpl.
  destruct (route_cases k (TaskIn_validate (today e) b) (replace_task e i)
              (fun t => Response 200 (CTask t)) s)
    as [(r & -> & Hr)|(p & Hp & ->)].
  - intros [= -> _]. simpl in Hr. lia.
  - rewrite replace_task_eq.
    destruct (dict_get i (DB s)) as [old|]; [|intros H; discriminate H].
    rewrite (Task_init_ok _ _ _ _ _ (TaskIn_validate_ok _ _ _ Hp)).
    intros [= <- <-]. exists p, old. repeat split. exact Hp.
Qed.

Lemma PATCH_ok_inv e k i b s t s' :
  serve API_KEY e (PATCH_task k i b) s = (Response 200 (CTask t), s') ->
  exists p existing,
    TaskUpdate_validate (today e) b = inr p
    /\ dict_get i (DB s) = Some existing
    /\ Task_init (today e)
         (set_updated_at (data_update (Task_model_dump existing) p) (now e))
       = inr t
    /\ s' = mkState (dict_setitem i t (DB s)) (_id_counter s).
Proof.
  simpl.
  destruct (route_cases k (TaskUpdate_validate (today e) b)
              (update_task e i) (fun t => Response 200 (CTask t)) s)
    as [(r & -> & Hr)|(p & Hp & ->)].
  - intros [= -> _]. simpl in Hr. lia.
  - rewrite update_task_eq.
    destruct (dict_get i (DB s)) as [existing|]; [|intros H; discriminate H].
    destruct (Task_init _ _) as [x|t'] eqn:E.
    + destruct x; intros H; discriminate H.
    + intros [= <- <-]. exists p, existing. repeat split; assumption.
Qed.


(** C9: a PATCH carrying the key on an existing task whose payload passes
    [TaskUpdate] but whose merged record has a title shorter than 4
    characters or a description longer than 100 makes [update_task] raise
    the validation error of [Task]; the answer is the 500 of an unhandled
    exception, neither 422 nor 200, and the state is as it was. *)
Theorem patch_merged_invalid_raises (e : Env) (task_id : Z) (b : Body)
    (s : State) (existing : Task) (payload : TaskUpdate) :
  dict_get task_id (DB s) = Some existing ->
  TaskUpdate_validate (today e) b = inr payload ->
  match d_title (data_update (Task_model_dump existing) payload) with
  | Some t => (String.length t < 4)%nat
  | None => False
  end
  \/ match d_description (data_update (Task_model_dump existing) payload)
     with
     | Some d => (100 < String.length d)%nat
     | None => False
     end ->
  (exists errors,
     update_task e task_id payload s = (inl (ValidationError errors), s))
  /\ serve API_KEY e (PATCH_task (Some API_KEY) task_id b) s
     = (Response 500 CInternal, s).
Proof.
  intros Hget Hv Hbad.
  destruct (Task_init_rejects (today e)
              (set_updated_at (data_update (Task_model_dump existing) payload)
                 (now e)) Hbad) as (errors & Herr).
  assert (Hu : update_task e task_id payload s
               = (inl (ValidationError errors), s))
    by (rewrite update_task_eq, Hget, Herr; reflexivity).
  split; [eauto|].
  simpl. rewrite Hv, route_authorised, Hu. reflexivity.
Qed.

(** C10: when the stored task has a [due_date] before today, a PATCH on it
    that sends no [due_date] is never answered 200 and leaves the state as
    it was, whatever its header; when its payload passes [TaskUpdate],
    [update_task] raises the validation error of [Task] on [due_date], and
    with the key the answer is 500. *)
Theorem patch_overdue_fails (e : Env) (task_id : Z) (b : Body) (s : State)
    (existing : Task) (d : date) (k : option string) :
  dict_get task_id (DB s) = Some existing ->
  due_date existing = Some d ->
  d < today e ->
  b_due_date b = Unset ->
  status_code (fst (serve API_KEY e (PATCH_task k task_id b) s)) <> 200
  /\ snd (serve API_KEY e (PATCH_task k task_id b) s) = s
  /\ (forall payload,
        TaskUpdate_validate (today e) b = inr payload ->
        (exists errors,
           update_task e task_id payload s
           = (inl (ValidationError errors), s)
           /\ In "due_date" errors)
        /\ serve API_KEY e (PATCH_task (Some API_KEY) task_id b) s
           = (Response 500 CInternal, s)).
Proof.
  intros Hget Hdue Hlt Hb.
  assert (Hraise : forall payload,
             TaskUpdate_validate (today e) b = inr payload ->
             exists errors,
               update_task e task_id payload s
               = (inl (ValidationError errors), s)
               /\ In "due_date" errors).
  { intros payload Hv. apply TaskUpdate_validate_inr in Hv.
    destruct Hv as (_ & _ & _ & _ & Hdd). rewrite Hb in Hdd. simpl in Hdd.
    injection Hdd as Hdd.
    destruct (Task_init_past (today e)
                (set_updated_at
                   (data_update (Task_model_dump existing) payload) (now e))
                d) as (errors & Herr & Hin).
    - simpl. rewrite <- Hdd. simpl. exact Hdue.
    - exact Hlt.
    - exists errors. split; [|exact Hin].
      rewrite update_task_eq, Hget, Herr. reflexivity. }
  assert (Hany : status_code
                   (fst (serve API_KEY e (PATCH_task k task_id b) s)) <> 200
                 /\ snd (serve API_KEY e (PATCH_task k task_id b) s) = s).
  { simpl.
    destruct (route_cases k (TaskUpdate_validate (today e) b)
                (update_task e task_id) (fun t => Response 200 (CTask t)) s)
      as [(r & -> & Hr)|(p & Hp & ->)].
    - simpl. split; [lia | reflexivity].
    - destruct (Hraise p Hp) as (errors & -> & _). simpl.
      split; [lia | reflexivity]. }
  destruct Hany as [Hstatus Hstate]. repeat split; try assumption.
  - now apply Hraise.
  - destruct (Hraise payload H) as (errors & Hu & _).
    simpl. rewrite H, route_authorised, Hu. reflexivity.
Qed.

(** *** Ids *)

Lemma init_inv : store_inv init.
Proof.
  split; [apply NoDup_nil|]. split; [simpl; lia|]. intros k t [].
Qed.

Lemma serve_transition e r s :
  store_inv s -> transition s (snd (serve API_KEY e r s)).
Proof.
  intros (_ & _ & Hids). destruct r as [|k b|k i|k i b|k i b|k i|k]; simpl.
  - constructor.
  - destruct (route_cases k (TaskIn_validate (today e) b) (create_task e)
                (fun t => Response 201 (CTask t)) s)
      as [(r & -> & _)|(p & Hp & ->)]; [constructor|].
    rewrite create_task_eq.
    rewrite (Task_init_ok _ _ _ _ _ (TaskIn_validate_ok _ _ _ Hp)). simpl.
    now constructor.
  - destruct (route_cases k no_payload (fun _ => get_task i)
                (fun t => Response 200 (CTask t)) s)
      as [(r & -> & _)|(p & _ & ->)]; [constructor|].
    rewrite get_task_eq. destruct (dict_get i (DB s)); constructor.
  - destruct (route_cases k (TaskIn_validate (today e) b) (replace_task e i)
                (fun t => Response 200 (CTask t)) s)
      as [(r & -> & _)|(p & Hp & ->)]; [constructor|].
    rewrite replace_task_eq.
    destruct (dict_get i (DB s)) as [old|] eqn:E; [|constructor].
    rewrite (Task_init_ok _ _ _ _ _ (TaskIn_validate_ok _ _ _ Hp)). simpl.
    constructor; [congruence | reflexivity].
  - destruct (route_cases k (TaskUpdate_validate (today e) b)
                (update_task e i) (fun t => Response 200 (CTask t)) s)
      as [(r & -> & _)|(p & Hp & ->)]; [constructor|].
    rewrite update_task_eq.
    destruct (dict_get i (DB s)) as [existing|] eqn:E; [|constructor].
    destruct (Task_init _ _) as [x|t] eqn:Et; simpl; [constructor|].
    apply Task_init_inr in Et. destruct Et as (Hid & _). simpl in Hid.
    constructor; [congruence|].
    rewrite Hid. now apply (Hids i existing), dict_get_In.
  - destruct (route_cases k no_payload (fun _ => delete_task i)
                (fun _ => Response 204 CEmpty) s)
      as [(r & -> & _)|(p & _ & ->)]; [constructor|].
    rewrite delete_task_eq. destruct (dict_contains i (DB s)); constructor.
  - destruct (route_cases k no_payload (fun _ => list_tasks_simple)
                (fun ts => Response 200 (CTasks ts)) s)
      as [(r & -> & _)|(p & _ & ->)]; constructor.
Qed.

Lemma transition_inv s s' : store_inv s -> transition s s' -> store_inv s'.
Proof.
  intros (Hnd & Hc & Hids) Ht.
  destruct Ht as [|t Hid|i t Hin Hid|i]; unfold store_inv; simpl.
  - split; [exact Hnd|]. split; [exact Hc | exact Hids].
  - split; [now apply NoDup_setitem|]. split; [lia|].
    intros k0 t0 H. apply In_setitem in H. destruct H as [[= -> ->]|H].
    + split; [exact Hid | lia].
    + destruct (Hids _ _ H). split; [assumption | lia].
  - split; [now apply NoDup_setitem|]. split; [exact Hc|].
    intros k0 t0 H. apply In_setitem in H. destruct H as [[= -> ->]|H].
    + split; [exact Hid|].
      destruct (dict_get i (DB s)) as [old|] eqn:E; [|now elim Hin].
      apply dict_get_In in E. now apply Hids in E.
    + now apply Hids.
  - split; [now apply NoDup_delitem|]. split; [exact Hc|].
    intros k0 t0 H. apply In_delitem in H. now apply Hids.
Qed.

Lemma transition_counter s s' :
  transition s s' -> _id_counter s <= _id_counter s'.
Proof. intros []; simpl; lia. Qed.

(** An id below the counter that is not a key never becomes one. *)
Lemma transition_absent s s' k :
  k < _id_counter s -> dict_get k (DB s) = None ->
  transition s s' -> dict_get k (DB s') = None.
Proof.
  intros Hlt Hnone Ht. destruct Ht as [|t Hid|i t Hin Hid|i]; simpl.
  - exact Hnone.
  - rewrite dict_get_setitem_other; [exact Hnone | lia].
  - rewrite dict_get_setitem_other; [exact Hnone | congruence].
  - now apply dict_get_delitem_None.
Qed.

Lemma run_inv rs : forall s, store_inv s -> store_inv (run API_KEY s rs).
Proof.
  induction rs as [|[e r] rs IH]; intros s Hs; simpl; [exact Hs|].
  apply IH. eapply transition_inv; [exact Hs | now apply serve_transition].
Qed.

Lemma reachable_inv s : reachable API_KEY s -> store_inv s.
Proof. intros [rs ->]. apply run_inv, init_inv. Qed.

(** Only [create_task] answers 201, and the id it gives is the value of the
    counter. *)
Lemma created_id e r s t :
  fst (serve API_KEY e r s) = Response 201 (CTask t) ->
  id t = _id_counter s.
Proof.
  destruct r as [|k b|k i|k i b|k i b|k i|k]; simpl.
  - discriminate.
  - destruct (serve API_KEY e (POST_tasks k b) s) as [resp s'] eqn:E.
    simpl in E. rewrite E. simpl. intros ->.
    apply POST_created_inv in E. destruct E as (p & _ & -> & _). reflexivity.
  - destruct (route_cases k no_payload (fun _ => get_task i)
                (fun t => Response 200 (CTask t)) s)
      as [(r & -> & Hr)|(p & _ & ->)].
    + simpl. intros ->. simpl in Hr. lia.
    + destruct (get_task i s) as [[[]|] ?]; discriminate.
  - destruct (route_cases k (TaskIn_validate (today e) b) (replace_task e i)
                (fun t => Response 200 (CTask t)) s)
      as [(r & -> & Hr)|(p & _ & ->)].
    + simpl. intros ->. simpl in Hr. lia.
    + destruct (replace_task e i p s) as [[[]|] ?]; discriminate.
  - destruct (route_cases k (TaskUpdate_validate (today e) b)
                (update_task e i) (fun t => Response 200 (CTask t)) s)
      as [(r & -> & Hr)|(p & _ & ->)].
    + simpl. intros ->. simpl in Hr. lia.
    + destruct (update_task e i p s) as [[[]|] ?]; discriminate.
  - destruct (route_cases k no_payload (fun _ => delete_task i)
                (fun _ => Response 204 CEmpty) s)
      as [(r & -> & Hr)|(p & _ & ->)].
    + simpl. intros ->. simpl in Hr. lia.
    + destruct (delete_task i s) as [[[]|] ?]; discriminate.
  - destruct (route_cases k no_payload (fun _ => list_tasks_simple)
                (fun ts => Response 200 (CTasks ts)) s)
      as [(r & -> & Hr)|(p & _ & ->)].
    + simpl. intros ->. simpl in Hr. lia.
    + discriminate.
Qed.

Lemma DELETE_ok_inv e k i s s' :
  serve API_KEY e (DELETE_task k i) s = (Response 204 CEmpty, s') ->
  dict_contains i (DB s) = true
  /\ s' = mkState (dict_delitem i (DB s)) (_id_counter s).
Proof.
  simpl.
  destruct (route_cases k no_payload (fun _ => delete_task i)
              (fun _ => Response 204 CEmpty) s)
    as [(r & -> & Hr)|(p & _ & ->)].
  - intros [= -> _]. simpl in Hr. lia.
  - rewrite delete_task_eq. destruct (dict_contains i (DB s));
      [now intros [= <-] | discriminate].
Qed.

Lemma GET_absent e i s :
  dict_get i (DB s) = None ->
  serve API_KEY e (GET_task (Some API_KEY) i) s
  = (Response 404 (CDetail "Task not found"), s).
Proof.
  intros H. simpl. rewrite route_authorised. simpl.
  now rewrite get_task_eq, H.
Qed.

(** Once an id below the counter is not a key, no later request stores
    under it and no later POST is answered with it. *)
Lemma never_again k rs :
  forall s,
    store_inv s -> k < _id_counter s -> dict_get k (DB s) = None ->
    dict_get k (DB (run API_KEY s rs)) = None
    /\ Forall (fun resp => forall t, resp = Response 201 (CTask t) ->
                                     id t <> k)
         (responses API_KEY s rs).
Proof.
  induction rs as [|[e r] rs IH]; intros s Hs Hlt Hnone; simpl.
  - split; [exact Hnone | constructor].
  - pose proof (serve_transition e r s Hs) as Ht.
    destruct (IH (snd (serve API_KEY e r s))) as [H1 H2].
    + eapply transition_inv; eassumption.
    + apply transition_counter in Ht. lia.
    + eapply transition_absent; eassumption.
    + split; [exact H1|]. constructor; [|exact H2].
      intros t Hresp. apply created_id in Hresp. lia.
Qed.

(** C7: in every reachable state no key of the store occurs twice and each
    stored task has the id it is stored under, an id between 1 and the
    counter; no request lowers the counter; a POST answered 201 gives the
    counter's value, which is not a key; and after a DELETE answered 204 a
    GET of that id with the key is answered 404, and whatever requests
    follow, the id is never a key again and no POST is answered with it. *)
Theorem ids_unique_never_reused (s : State) :
  reachable API_KEY s ->
  (NoDup (dict_keys (DB s))
   /\ forall k t, In (k, t) (DB s) -> id t = k /\ 1 <= k < _id_counter s)
  /\ (forall e r, _id_counter s <= _id_counter (snd (serve API_KEY e r s)))
  /\ (forall e r t,
        fst (serve API_KEY e r s) = Response 201 (CTask t) ->
        id t = _id_counter s /\ dict_get (id t) (DB s) = None)
  /\ (forall e0 k0 tid s',
        serve API_KEY e0 (DELETE_task k0 tid) s = (Response 204 CEmpty, s') ->
        (forall e, serve API_KEY e (GET_task (Some API_KEY) tid) s'
                   = (Response 404 (CDetail "Task not found"), s'))
        /\ forall rs,
             dict_get tid (DB (run API_KEY s' rs)) = None
             /\ Forall (fun resp => forall t, resp = Response 201 (CTask t) ->
                                              id t <> tid)
                  (responses API_KEY s' rs)).
Proof.
  intros Hreach. pose proof (reachable_inv s Hreach) as Hs.
  destruct Hs as (Hnd & Hc & Hids).
  assert (Hs : store_inv s) by (split; [|split]; assumption).
  split; [split; assumption|]. split; [|split].
  - intros e r. apply transition_counter. now apply serve_transition.
  - intros e r t H. apply created_id in H. split; [exact H|]. rewrite H.
    destruct (dict_get (_id_counter s) (DB s)) as [t0|] eqn:E; [|reflexivity].
    apply dict_get_In, Hids in E. lia.
  - intros e0 k0 tid s' Hdel.
    assert (Hs' : store_inv s').
    { replace s' with (snd (serve API_KEY e0 (DELETE_task k0 tid) s))
        by now rewrite Hdel.
      eapply transition_inv; [exact Hs | now apply serve_transition]. }
    apply DELETE_ok_inv in Hdel. destruct Hdel as [Hin ->].
    assert (Hnone : dict_get tid (dict_delitem tid (DB s)) = None)
      by now apply dict_get_delitem_same.
    assert (Hlt : tid < _id_counter s).
    { apply dict_contains_get in Hin.
      destruct (dict_get tid (DB s)) as [t0|] eqn:E; [|now elim Hin].
      apply dict_get_In, Hids in E. lia. }
    split.
    + intros e. now apply GET_absent.
    + intros rs. now apply never_again.
Qed.

(** *** The key *)

(** X1: a header with another value than the key is answered 401 by every
    route that depends on [require_key], before the body is validated and
    before the handler runs; the state is as it was. *)
Lemma wrong_key_unauthorized e r s v :
  key_of r = Some (Some v) -> v <> API_KEY ->
  serve API_KEY e r s = (unauthorized, s).
Proof.
  intros Hk Hne.
  destruct r as [|k b|k i|k i b|k i b|k i|k]; simpl in Hk;
    try discriminate; injection Hk as ->; simpl; now apply route_wrong.
Qed.

(** Without the header the same routes answer 422, not 401; the state is
    as it was. *)
Lemma missing_key_unprocessable e r s :
  key_of r = Some None ->
  status_code (fst (serve API_KEY e r s)) = 422
  /\ snd (serve API_KEY e r s) = s.
Proof.
  intros Hk.
  destruct r as [|k b|k i|k i b|k i b|k i|k]; simpl in Hk;
    try discriminate; injection Hk as ->; unfold serve;
    rewrite route_missing; now split.
Qed.

(** *** Partial updates that go through *)

(** When the stored record still passes [Task] today, a PATCH that sends
    only a status is answered 200 and changes nothing but [status] and
    [updated_at]. *)
Lemma patch_status_only_frame e i s existing x st :
  dict_get i (DB s) = Some existing ->
  TaskIn_ok (today e) existing ->
  literal_Status x = Some st ->
  let t' :=
    mkTask (mkTaskIn (title existing) (description existing)
              (priority existing) st (due_date existing))
      (id existing) (created_at existing) (now e) in
  serve API_KEY e
    (PATCH_task (Some API_KEY) i (mkBody Unset Unset Unset (Val x) Unset)) s
  = (Response 200 (CTask t'),
     mkState (dict_setitem i t' (DB s)) (_id_counter s)).
Proof.
  intros Hget Hok Hst t'. simpl. unfold TaskUpdate_validate. simpl.
  rewrite Hst. simpl. rewrite route_authorised, update_task_eq, Hget.
  change (set_updated_at _ _)
    with (TaskIn_model_dump (id existing) (created_at existing) (now e)
            (mkTaskIn (title existing) (description existing)
               (priority existing) st (due_date existing))).
  rewrite Task_init_ok; [reflexivity | exact Hok].
Qed.

End Properties.

(** ** Runs of the service *)

Example create_write_spec :
  serve key day10 (POST_tasks (Some key) (only_title "Write spec")) init
  = (Response 201 (CTask written), one_task).
Proof. reflexivity. Qed.

(** C1: a POST without the [x-api-key] header is answered 422, with the
    header as the location of the error, and not the 401 that
    [require_key] raises for a missing key; the state is as it was. *)
Theorem missing_key_post_is_422 :
  serve key day10 (POST_tasks None (only_title "Write spec")) init
  = (Response 422 (CErrors ["header.x-api-key"]), init)
  /\ status_code
       (fst (serve key day10 (POST_tasks None (only_title "Write spec"))
               init)) <> 401.
Proof. split; [reflexivity | simpl; lia]. Qed.

(** C2: a PATCH with the key on a stored task, whose only key is a
    description of 101 characters, passes [TaskUpdate] (bound 500) and is
    then answered 500: [update_task] raises when it builds the [Task]
    (bound 100).  The stored record is as it was. *)
Theorem patch_description_101_is_500 :
  String.length (chars 101) = 101%nat
  /\ (exists payload,
        TaskUpdate_validate (today day10_later) (only_description (chars 101))
        = inr payload)
  /\ serve key day10_later
       (PATCH_task (Some key) 1 (only_description (chars 101))) one_task
     = (Response 500 CInternal, one_task).
Proof.
  split; [reflexivity|]. split; [eexists; reflexivity | reflexivity].
Qed.

(** C6: a task is created on day 10 with that day as its due date; on
    day 11 a PATCH with the key that sends only the status [done] is
    answered 500 and the record keeps its status [todo]. *)
Theorem patch_status_on_overdue_is_500 :
  responses key init
    [(day10, POST_tasks (Some key) (title_due "Write spec" 10));
     (day11, PATCH_task (Some key) 1 (only_status "done"))]
  = [Response 201 (CTask written_due); Response 500 CInternal]
  /\ run key init
       [(day10, POST_tasks (Some key) (title_due "Write spec" 10));
        (day11, PATCH_task (Some key) 1 (only_status "done"))]
     = one_task_due.
Proof. split; reflexivity. Qed.

(** ** The theorems at concrete requests *)

Lemma create_title_length_witness :
  ((forall k, snd (serve key day10 (POST_tasks k (only_title "abc")) init)
              = init)
   /\ exists errors,
        serve key day10 (POST_tasks (Some key) (only_title "abc")) init
        = (Response 422 (CErrors errors), init)
        /\ In "body.title" errors)
  /\ exists task,
       serve key day10 (POST_tasks (Some key) (only_title "Write spec")) init
       = (Response 201 (CTask task),
          mkState (dict_setitem (_id_counter init) task (DB init))
            (_id_counter init + 1))
       /\ title task = "Write spec"
       /\ id task = _id_counter init.
Proof.
  split.
  - apply (proj1 (create_title_length key day10 (only_title "abc") init "abc"
                    eq_refl)).
    simpl. lia.
  - apply (proj2 (create_title_length key day10 (only_title "Write spec")
                    init "Write spec" eq_refl)); simpl; try lia; exact I.
Defined.

Lemma past_due_date_rejected_witness :
  (snd (serve key day11 (PUT_task (Some key) 1 (title_due "Write spec" 10))
          one_task_due) = one_task_due
   /\ (status_code
         (fst (serve key day11
                 (PUT_task (Some key) 1 (title_due "Write spec" 10))
                 one_task_due)) = 401
       \/ status_code
            (fst (serve key day11
                    (PUT_task (Some key) 1 (title_due "Write spec" 10))
                    one_task_due)) = 422)
   /\ (Some key = Some key ->
       exists errors,
         fst (serve key day11
                (PUT_task (Some key) 1 (title_due "Write spec" 10))
                one_task_due)
         = Response 422 (CErrors errors)
         /\ In "body.due_date" errors))
  /\ (TaskIn_due_not_past (today day10) (Some 10) = Some (Some 10)
      /\ TaskUpdate_due_not_past (today day10) (Some 10) = Some (Some 10)
      /\ ~ In "body.due_date"
             (body_errors
                (TaskIn_validate (today day10) (title_due "Write spec" 10)))
      /\ ~ In "body.due_date"
             (body_errors
                (TaskUpdate_validate (today day10)
                   (title_due "Write spec" 10)))).
Proof.
  split.
  - apply (proj1 (past_due_date_rejected key day11
                    (title_due "Write spec" 10) one_task_due 1 10 eq_refl)).
    + simpl. lia.
    + right. left. reflexivity.
  - apply (proj2 (past_due_date_rejected key day10
                    (title_due "Write spec" 10) init 1 10 eq_refl)).
    simpl. lia.
Defined.


Lemma ids_unique_never_reused_witness :
  (forall e, serve key e (GET_task (Some key) 1) (mkState [] 2)
             = (Response 404 (CDetail "Task not found"), mkState [] 2))
  /\ forall rs,
       dict_get 1 (DB (run key (mkState [] 2) rs)) = None
       /\ Forall (fun resp => forall t, resp = Response 201 (CTask t) ->
                                        id t <> 1)
            (responses key (mkState [] 2) rs).
Proof.
  assert (Hreach : reachable key one_task).
  { exists [(day10, POST_tasks (Some key) (only_title "Write spec"))].
    reflexivity. }
  destruct (ids_unique_never_reused key one_task Hreach) as (_ & _ & _ & H).
  apply (H day10_later (Some key) 1 (mkState [] 2)). reflexivity.
Defined.


Lemma patch_merged_invalid_raises_witness :
  (exists errors,
     update_task day10_later 1
       (mkTaskUpdate (Val "ab") Unset Unset Unset Unset) one_task
     = (inl (ValidationError errors), one_task))
  /\ serve key day10_later (PATCH_task (Some key) 1 (only_title "ab"))
       one_task
     = (Response 500 CInternal, one_task).
Proof.
  apply (patch_merged_invalid_raises key day10_later 1 (only_title "ab")
           one_task written).
  - reflexivity.
  - reflexivity.
  - left. simpl. lia.
Defined.

Lemma patch_overdue_fails_witness :
  status_code
    (fst (serve key day11 (PATCH_task (Some key) 1 (only_status "done"))
            one_task_due)) <> 200
  /\ snd (serve key day11 (PATCH_task (Some key) 1 (only_status "done"))
            one_task_due) = one_task_due
  /\ (forall payload,
        TaskUpdate_validate (today day11) (only_status "done") = inr payload ->
        (exists errors,
           update_task day11 1 payload one_task_due
           = (inl (ValidationError errors), one_task_due)
           /\ In "due_date" errors)
        /\ serve key day11 (PATCH_task (Some key) 1 (only_status "done"))
             one_task_due
           = (Response 500 CInternal, one_task_due)).
Proof.
  apply (patch_overdue_fails key day11 1 (only_status "done") one_task_due
           written_due 10 (Some key)).
  - reflexivity.
  - reflexivity.
  - simpl. lia.
  - reflexivity.
Defined.

(** ** More facts about the dictionary *)

Lemma dict_setitem_absent k v d :
  dict_get k d = None -> dict_setitem k v d = d ++ [(k, v)].
Proof.
  induction d as [|[k0 v0] r IH]; simpl; [reflexivity|].
  destruct (k =? k0); [discriminate|]. intros H. now rewrite IH.
Qed.

Lemma dict_keys_setitem_present k v d :
  dict_get k d <> None -> dict_keys (dict_setitem k v d) = dict_keys d.
Proof.
  induction d as [|[k0 v0] r IH]; simpl; [intros H; now elim H|].
  destruct (Z.eqb_spec k k0) as [->|Hne]; simpl; [reflexivity|].
  intros H. f_equal. now apply IH.
Qed.

Lemma dict_setitem_setitem k v1 v2 d :
  dict_setitem k v2 (dict_setitem k v1 d) = dict_setitem k v2 d.
Proof.
  induction d as [|[k0 v0] r IH]; simpl.
  - now rewrite Z.eqb_refl.
  - destruct (Z.eqb_spec k k0) as [->|Hne]; simpl.
    + now rewrite Z.eqb_refl.
    + destruct (Z.eqb_spec k k0); [contradiction | now rewrite IH].
Qed.

Lemma dict_keys_not_in k d :
  ~ In k (dict_keys d) ->
  filter (fun x => negb (x =? k)) (dict_keys d) = dict_keys d.
Proof.
  induction d as [|[k0 v0] r IH]; simpl; [reflexivity|].
  intros H. destruct (Z.eqb_spec k0 k) as [->|Hne]; simpl.
  - elim H. now left.
  - f_equal. apply IH. intros H'. apply H. now right.
Qed.

Lemma dict_keys_delitem k d :
  NoDup (dict_keys d) ->
  dict_keys (dict_delitem k d) = filter (fun x => negb (x =? k)) (dict_keys d).
Proof.
  induction d as [|[k0 v0] r IH]; simpl; intros Hnd; [reflexivity|].
  inversion Hnd as [|? ? Hnotin Hnd']; subst.
  destruct (Z.eqb_spec k k0) as [->|Hne]; simpl.
  - rewrite Z.eqb_refl. simpl. symmetry. now apply dict_keys_not_in.
  - destruct (Z.eqb_spec k0 k); [congruence|]. simpl. f_equal. now apply IH.
Qed.

Lemma dict_delitem_length k d :
  dict_contains k d = true ->
  S (List.length (dict_delitem k d)) = List.length d.
Proof.
  induction d as [|[k0 v0] r IH]; simpl; [discriminate|].
  destruct (k =? k0); simpl; [reflexivity|]. intros H. now rewrite IH.
Qed.

Lemma dict_setitem_length_present k v d :
  dict_get k d <> None ->
  List.length (dict_setitem k v d) = List.length d.
Proof.
  intros H.
  pose proof (dict_keys_setitem_present k v d H) as E.
  apply (f_equal (@List.length Z)) in E. unfold dict_keys in E.
  now rewrite !length_map in E.
Qed.

Lemma dict_get_values k d t : dict_get k d = Some t -> In t (dict_values d).
Proof.
  intros H. apply dict_get_In in H. unfold dict_values.
  now apply (in_map snd) in H.
Qed.

(** ** More properties of the service *)

Section Behaviour.

Variable API_KEY : string.

(** Every request is one of the five cases of [effect]. *)
Lemma serve_effect e r s :
  effect e s r (fst (serve API_KEY e r s)) (snd (serve API_KEY e r s)).
Proof.
  destruct r as [|k b|k i|k i b|k i b|k i|k]; simpl.
  - apply eff_none; simpl; lia.
  - destruct (route_cases API_KEY k (TaskIn_validate (today e) b)
                (create_task e) (fun t => Response 201 (CTask t)) s)
      as [(r & -> & Hr)|(p & Hp & ->)].
    + apply eff_none; simpl; lia.
    + rewrite create_task_eq.
      rewrite (Task_init_ok _ _ _ _ _ (TaskIn_validate_ok _ _ _ Hp)). simpl.
      now apply eff_create.
  - destruct (route_cases API_KEY k no_payload (fun _ => get_task i)
                (fun t => Response 200 (CTask t)) s)
      as [(r & -> & Hr)|(p & _ & ->)].
    + apply eff_none; simpl; lia.
    + rewrite get_task_eq. destruct (dict_get i (DB s));
        apply eff_none; simpl; lia.
  - destruct (route_cases API_KEY k (TaskIn_validate (today e) b)
                (replace_task e i) (fun t => Response 200 (CTask t)) s)
      as [(r & -> & Hr)|(p & Hp & ->)].
    + apply eff_none; simpl; lia.
    + rewrite replace_task_eq.
      destruct (dict_get i (DB s)) as [old|] eqn:E.
      * rewrite (Task_init_ok _ _ _ _ _ (TaskIn_validate_ok _ _ _ Hp)).
        simpl. now apply eff_replace.
      * apply eff_none; simpl; lia.
  - destruct (route_cases API_KEY k (TaskUpdate_validate (today e) b)
                (update_task e i) (fun t => Response 200 (CTask t)) s)
      as [(r & -> & Hr)|(p & Hp & ->)].
    + apply eff_none; simpl; lia.
    + rewrite update_task_eq.
      destruct (dict_get i (DB s)) as [existing|] eqn:E.
      * destruct (Task_init _ _) as [x|t] eqn:Et; simpl.
        -- apply eff_none; destruct x; simpl; try lia.
           unfold Task_init in Et.
           destruct (not_none _ _), (or_none _ _), (not_none Some _),
             (not_none Some _), (TaskIn_due_not_past _ _); discriminate Et.
           unfold Task_init in Et.
           destruct (not_none _ _), (or_none _ _), (not_none Some _),
             (not_none Some _), (TaskIn_due_not_past _ _); discriminate Et.
        -- now apply (eff_update e s k i b p existing t).
      * apply eff_none; simpl; lia.
  - destruct (route_cases API_KEY k no_payload (fun _ => delete_task i)
                (fun _ => Response 204 CEmpty) s)
      as [(r & -> & Hr)|(p & _ & ->)].
    + apply eff_none; simpl; lia.
    + rewrite delete_task_eq. destruct (dict_contains i (DB s)) eqn:E; simpl.
      * now apply eff_delete.
      * apply eff_none; simpl; lia.
  - destruct (route_cases API_KEY k no_payload (fun _ => list_tasks_simple)
                (fun ts => Response 200 (CTasks ts)) s)
      as [(r & -> & Hr)|(p & _ & ->)]; apply eff_none; simpl; lia.
Qed.

Lemma serve_effect_of e r s resp s' :
  serve API_KEY e r s = (resp, s') -> effect e s r resp s'.
Proof.
  intros H. pose proof (serve_effect e r s) as E. now rewrite H in E.
Qed.

(** [Task] raises nothing but its validation error. *)
Lemma Task_init_inl today data x :
  Task_init today data = inl x -> exists errors, x = ValidationError errors.
Proof.
  unfold Task_init.
  destruct (not_none _ _), (or_none _ _), (not_none Some _),
    (not_none Some _), (TaskIn_due_not_past _ _); intros [= <-]; eauto.
Qed.

(** A request without the key of the service is stopped before its body
    and the store are looked at. *)
Lemma not_the_key e r s k :
  key_of r = Some k -> k <> Some API_KEY ->
  snd (serve API_KEY e r s) = s
  /\ (status_code (fst (serve API_KEY e r s)) = 401
      \/ status_code (fst (serve API_KEY e r s)) = 422).
Proof.
  intros Hk Hne.
  destruct r as [|k' b|k' i|k' i b|k' i b|k' i|k']; simpl in Hk;
    try discriminate; injection Hk as ->; unfold serve;
    (destruct k as [v|];
     [ rewrite route_wrong by congruence; split; [reflexivity | now left]
     | rewrite route_missing; split; [reflexivity | now right] ]).
Qed.

Lemma key_dec (k : option string) : {k = Some API_KEY} + {k <> Some API_KEY}.
Proof.
  destruct k as [v|]; [|right; discriminate].
  destruct (String.eqb_spec v API_KEY) as [->|Hne];
    [now left | right; congruence].
Qed.

(** *** What the validators accept *)

Lemma optional_str_inv lo hi f g :
  optional (str_constraints lo hi) f = Some g ->
  g = f /\ match f with
           | Val x => (lo <= String.length x <= hi)%nat
           | _ => True
           end.
Proof.
  destruct f as [| |x]; simpl.
  - intros [= <-]. now split.
  - intros [= <-]. now split.
  - destruct (str_constraints lo hi x) as [x'|] eqn:E; simpl; [|discriminate].
    apply str_constraints_Some in E. destruct E as [-> E].
    intros [= <-]. now split.
Qed.

Lemma literal_Priority_inv x p :
  literal_Priority x = Some p -> x = "low" \/ x = "medium" \/ x = "high".
Proof.
  unfold literal_Priority.
  destruct (String.eqb_spec x "low"); [now left|].
  destruct (String.eqb_spec x "medium"); [right; now left|].
  destruct (String.eqb_spec x "high"); [right; now right | discriminate].
Qed.

Lemma literal_Status_inv x p :
  literal_Status x = Some p -> x = "todo" \/ x = "doing" \/ x = "done".
Proof.
  unfold literal_Status.
  destruct (String.eqb_spec x "todo"); [now left|].
  destruct (String.eqb_spec x "doing"); [right; now left|].
  destruct (String.eqb_spec x "done"); [right; now right | discriminate].
Qed.

Lemma literal_Priority_names x :
  x = "low" \/ x = "medium" \/ x = "high" ->
  exists p, literal_Priority x = Some p.
Proof. intros [ -> | [ -> | -> ] ]; eexists; reflexivity. Qed.

Lemma literal_Status_names x :
  x = "todo" \/ x = "doing" \/ x = "done" ->
  exists p, literal_Status x = Some p.
Proof. intros [ -> | [ -> | -> ] ]; eexists; reflexivity. Qed.

Lemma validated_due_inv (today : date) (f g : field date) :
  validated (TaskUpdate_due_not_past today) f = Some g ->
  g = f /\ match f with
           | Val d => today <= d
           | _ => True
           end.
Proof.
  destruct f as [| |d]; simpl.
  - intros [= <-]. now split.
  - intros [= <-]. now split.
  - destruct (Z.ltb_spec d today); [discriminate|].
    intros [= <-]. now split.
Qed.

(** [TaskIn] accepts a body exactly when each key is acceptable. *)
Lemma TaskIn_validate_iff today b :
  create_body_ok today b <-> exists p, TaskIn_validate today b = inr p.
Proof.
  split.
  - intros (Ht & Hd & Hp & Hs & Hdd).
    destruct (b_title b) as [| |x] eqn:E; try contradiction.
    destruct (TaskIn_validate_accepts today b x E Ht Hd Hp Hs Hdd)
      as (p & H & _). eauto.
  - intros [p H]. apply TaskIn_validate_inr in H.
    destruct H as (Ht & (d & Hd & _) & Hp & Hs & (dd & Hdd & _)).
    unfold create_body_ok. split.
    { destruct (b_title b) as [| |x]; simpl in Ht; try discriminate.
      apply str_constraints_Some in Ht. destruct Ht as [_ Ht]. exact Ht. }
    split.
    { apply optional_str_inv in Hd. destruct Hd as [_ Hd].
      destruct (b_description b); simpl; try exact I. lia. }
    split.
    { destruct (b_priority b) as [| |x]; simpl in *;
        [exact I | discriminate | now apply literal_Priority_inv in Hp]. }
    split.
    { destruct (b_status b) as [| |x]; simpl in *;
        [exact I | discriminate | now apply literal_Status_inv in Hs]. }
    change (TaskIn_due_not_past today)
      with (TaskUpdate_due_not_past today) in Hdd.
    apply validated_due_inv in Hdd. destruct Hdd as [_ Hdd].
    destruct (b_due_date b); simpl; try exact I. exact Hdd.
Qed.

(** [TaskUpdate] accepts a body exactly when each key that holds a value
    is acceptable, and then the payload holds the keys as they were
    sent. *)
Lemma TaskUpdate_validate_iff today b :
  update_body_ok today b <-> exists p, TaskUpdate_validate today b = inr p.
Proof.
  split.
  - intros (Ht & Hd & Hp & Hs & Hdd). unfold TaskUpdate_validate.
    assert (E1 : optional (str_constraints 1 100) (b_title b)
                 = Some (b_title b)).
    { destruct (b_title b) as [| |x]; simpl; try reflexivity.
      assert (E : str_constraints 1 100 x = Some x)
        by (apply str_constraints_Some; split; [reflexivity | exact Ht]).
      now rewrite E. }
    assert (E2 : optional (str_constraints 0 500) (b_description b)
                 = Some (b_description b)).
    { destruct (b_description b) as [| |x]; simpl; try reflexivity.
      assert (E : str_constraints 0 500 x = Some x)
        by (apply str_constraints_Some; split; [reflexivity | lia]).
      now rewrite E. }
    assert (E3 : exists g, optional literal_Priority (b_priority b) = Some g).
    { destruct (b_priority b) as [| |x]; simpl; eauto.
      destruct (literal_Priority_names x Hp) as [q ->]. simpl. eauto. }
    assert (E4 : exists g, optional literal_Status (b_status b) = Some g).
    { destruct (b_status b) as [| |x]; simpl; eauto.
      destruct (literal_Status_names x Hs) as [q ->]. simpl. eauto. }
    assert (E5 : validated (TaskUpdate_due_not_past today) (b_due_date b)
                 = Some (b_due_date b)).
    { destruct (b_due_date b) as [| |d]; simpl; try reflexivity.
      destruct (Z.ltb_spec d today); [lia | reflexivity]. }
    destruct E3 as [g3 E3]. destruct E4 as [g4 E4].
    rewrite E1, E2, E3, E4, E5. eauto.
  - intros [p H]. apply TaskUpdate_validate_inr in H.
    destruct H as (Ht & Hd & Hp & Hs & Hdd).
    apply optional_str_inv in Ht. apply optional_str_inv in Hd.
    apply validated_due_inv in Hdd.
    destruct Ht as [_ Ht]. destruct Hd as [_ Hd]. destruct Hdd as [_ Hdd].
    unfold update_body_ok. split; [exact Ht|]. split.
    { destruct (b_description b); try exact I. lia. }
    split.
    { destruct (b_priority b) as [| |x]; try exact I. simpl in Hp.
      destruct (literal_Priority x) eqn:E; [|discriminate].
      now apply literal_Priority_inv in E. }
    split; [|exact Hdd].
    destruct (b_status b) as [| |x]; try exact I. simpl in Hs.
    destruct (literal_Status x) eqn:E; [|discriminate].
    now apply literal_Status_inv in E.
Qed.

(** The record that [Task] builds is within the bounds of [TaskIn]. *)
Lemma Task_init_bounds today data t :
  Task_init today data = inr t -> Task_bounds t.
Proof.
  unfold Task_init, Task_bounds.
  destruct (d_title data) as [x|]; simpl; [|intros H; discriminate H].
  destruct (str_constraints 4 100 x) as [x'|] eqn:Ex;
    [|intros H; discriminate H].
  apply str_constraints_Some in Ex. destruct Ex as [-> Hx].
  destruct (or_none _ (d_description data)) as [d'|] eqn:Ed;
    [|intros H; discriminate H].
  destruct (not_none Some (d_priority data)); [|intros H; discriminate H].
  destruct (not_none Some (d_status data)); [|intros H; discriminate H].
  destruct (TaskIn_due_not_past today (d_due_date data));
    [|intros H; discriminate H].
  intros [= <-]. simpl. split; [exact Hx|].
  destruct (d_description data) as [y|]; simpl in Ed.
  - destruct (str_constraints 0 100 y) as [y'|] eqn:Ey; simpl in Ed;
      [|discriminate]. apply str_constraints_Some in Ey.
    destruct Ey as [-> Hy]. injection Ed as <-. lia.
  - injection Ed as <-. exact I.
Qed.



(** X2: a request that is answered with a status below 400, or that
    changes the state, is the landing page or carries the key of the
    service. *)
Theorem success_needs_key (e : Env) (r : request) (s : State) :
  status_code (fst (serve API_KEY e r s)) < 400
  \/ snd (serve API_KEY e r s) <> s ->
  r = GET_root \/ key_of r = Some (Some API_KEY).
Proof.
  intros H. destruct (key_of r) as [k|] eqn:Hk.
  - destruct (key_dec k) as [->|Hne]; [now right|].
    destruct (not_the_key e r s k Hk Hne) as [Hs Hc].
    destruct H as [H|H]; [lia | contradiction].
  - destruct r; simpl in Hk; try discriminate. now left.
Qed.

(** X3: the reading routes (the landing page, GET of one task, GET of the
    list) never change the store or the counter, whatever the header and
    the answer. *)
Theorem reads_leave_state (e : Env) (r : request) (s : State) :
  reads_only r = true -> snd (serve API_KEY e r s) = s.
Proof.
  intros Hr. destruct (serve API_KEY e r s) as [resp s'] eqn:E.
  apply serve_effect_of in E. simpl.
  destruct E; simpl in Hr; try discriminate; reflexivity.
Qed.

(** X4: the task of a 201 answer is returned unchanged by a GET of its id
    with the key, and the GET leaves the state as it is. *)
Theorem create_then_get (e1 e2 : Env) (k : option string) (b : Body)
    (s s1 : State) (t : Task) :
  serve API_KEY e1 (POST_tasks k b) s = (Response 201 (CTask t), s1) ->
  serve API_KEY e2 (GET_task (Some API_KEY) (id t)) s1
  = (Response 200 (CTask t), s1).
Proof.
  intros H. apply POST_created_inv in H. destruct H as (p & _ & Ht & ->).
  unfold serve. rewrite route_authorised. simpl. rewrite get_task_eq. simpl.
  rewrite Ht at 1. simpl. now rewrite dict_get_setitem_same.
Qed.

(** X5: in a reachable state, the task of a GET answered 200 is the
    record stored under the requested id, and its id is the requested
    one. *)
Theorem get_returns_the_stored (e : Env) (k : option string) (i : Z)
    (s : State) (t : Task) :
  reachable API_KEY s ->
  fst (serve API_KEY e (GET_task k i) s) = Response 200 (CTask t) ->
  dict_get i (DB s) = Some t /\ id t = i.
Proof.
  intros Hreach. apply reachable_inv in Hreach.
  destruct Hreach as (_ & _ & Hids). simpl.
  destruct (route_cases API_KEY k no_payload (fun _ => get_task i)
              (fun t => Response 200 (CTask t)) s)
    as [(r & -> & Hr)|(p & _ & ->)].
  - simpl. intros ->. simpl in Hr. lia.
  - rewrite get_task_eq. destruct (dict_get i (DB s)) as [t0|] eqn:E; simpl.
    + intros [= ->]. split; [reflexivity|].
      now apply dict_get_In, Hids in E.
    + discriminate.
Qed.

(** X6: in a reachable state, an id that the counter has not handed out
    yet (or that is below 1) is answered 404 by GET, PUT with a valid
    body, and DELETE, with the key; the state is as it was. *)
Theorem never_created_is_404 (e : Env) (i : Z) (s : State) :
  reachable API_KEY s ->
  i < 1 \/ _id_counter s <= i ->
  serve API_KEY e (GET_task (Some API_KEY) i) s
  = (Response 404 (CDetail "Task not found"), s)
  /\ serve API_KEY e (DELETE_task (Some API_KEY) i) s
     = (Response 404 (CDetail "Task not found"), s)
  /\ forall b p,
       TaskIn_validate (today e) b = inr p ->
       serve API_KEY e (PUT_task (Some API_KEY) i b) s
       = (Response 404 (CDetail "Task not found"), s).
Proof.
  intros Hreach Hi. apply reachable_inv in Hreach.
  destruct Hreach as (_ & _ & Hids).
  assert (Hnone : dict_get i (DB s) = None).
  { destruct (dict_get i (DB s)) as [t|] eqn:E; [|reflexivity].
    apply dict_get_In, Hids in E. lia. }
  split; [now apply GET_absent|]. split.
  - unfold serve. rewrite route_authorised. simpl. rewrite delete_task_eq.
    apply dict_contains_false in Hnone. now rewrite Hnone.
  - intros b p Hp. unfold serve. rewrite route_authorised, Hp.
    rewrite replace_task_eq, Hnone. reflexivity.
Qed.

(** X7: in a reachable state, the list answered after a POST answered 201
    is the list of before with the new task at its end. *)
Theorem post_appends_to_list (e e' : Env) (k : option string) (b : Body)
    (s s1 : State) (t : Task) :
  reachable API_KEY s ->
  serve API_KEY e (POST_tasks k b) s = (Response 201 (CTask t), s1) ->
  serve API_KEY e' (GET_tasks (Some API_KEY)) s
  = (Response 200 (CTasks (dict_values (DB s))), s)
  /\ serve API_KEY e' (GET_tasks (Some API_KEY)) s1
     = (Response 200 (CTasks (dict_values (DB s) ++ [t])), s1).
Proof.
  intros Hreach H. apply reachable_inv in Hreach.
  destruct Hreach as (_ & _ & Hids).
  apply POST_created_inv in H. destruct H as (p & _ & Ht & ->).
  split; [unfold serve; now rewrite route_authorised|].
  unfold serve. rewrite route_authorised. simpl.
  unfold list_tasks_simple, DB_values. simpl.
  rewrite dict_setitem_absent.
  - unfold dict_values. now rewrite map_app.
  - destruct (dict_get (_id_counter s) (DB s)) as [t0|] eqn:E; [|reflexivity].
    apply dict_get_In, Hids in E. lia.
Qed.

(** X8: only POST and DELETE change which ids are stored: after any other
    request the ids of the store, in their order, are those of before. *)
Theorem ids_kept (e : Env) (r : request) (s : State) :
  keeps_ids r = true ->
  dict_keys (DB (snd (serve API_KEY e r s))) = dict_keys (DB s).
Proof.
  intros Hr. destruct (serve API_KEY e r s) as [resp s'] eqn:E.
  apply serve_effect_of in E. simpl.
  destruct E as [r resp H1 H2|k b p Hp|k i b p old Hp Hold
                |k i b p existing t Hp Hex Ht|k i Hin];
    simpl in Hr; try discriminate Hr.
  - reflexivity.
  - simpl. apply dict_keys_setitem_present. congruence.
  - simpl. apply dict_keys_setitem_present. congruence.
Qed.

(** X9: in a reachable state, the list answered by GET of the tasks with
    the key holds the stored records in the order of their ids in the
    store, and no two of them have the same id. *)
Theorem list_has_distinct_ids (e : Env) (s : State) :
  reachable API_KEY s ->
  exists ts,
    serve API_KEY e (GET_tasks (Some API_KEY)) s = (Response 200 (CTasks ts), s)
    /\ map id ts = dict_keys (DB s)
    /\ NoDup (map id ts).
Proof.
  intros Hreach. apply reachable_inv in Hreach.
  destruct Hreach as (Hnd & _ & Hids).
  exists (dict_values (DB s)).
  assert (E : map id (dict_values (DB s)) = dict_keys (DB s)).
  { unfold dict_values, dict_keys. rewrite map_map.
    apply map_ext_in. intros [k t] Hin. simpl. now apply Hids in Hin. }
  split; [unfold serve; now rewrite route_authorised|].
  split; [exact E | now rewrite E].
Qed.

(** X10: in a reachable state, a DELETE answered 204 removes the record
    of its id and nothing else: the id is no longer a key, every other id
    keeps its record, the ids that remain keep their order, the store has
    one record less, the counter is as it was, and a second DELETE of the
    id with the key is answered 404. *)
Theorem delete_removes_one (e e' : Env) (k : option string) (i : Z)
    (s s' : State) :
  reachable API_KEY s ->
  serve API_KEY e (DELETE_task k i) s = (Response 204 CEmpty, s') ->
  dict_get i (DB s') = None
  /\ (forall j, j <> i -> dict_get j (DB s') = dict_get j (DB s))
  /\ dict_keys (DB s') = filter (fun x => negb (x =? i)) (dict_keys (DB s))
  /\ S (List.length (DB s')) = List.length (DB s)
  /\ _id_counter s' = _id_counter s
  /\ serve API_KEY e' (DELETE_task (Some API_KEY) i) s'
     = (Response 404 (CDetail "Task not found"), s').
Proof.
  intros Hreach H. apply reachable_inv in Hreach.
  destruct Hreach as (Hnd & _ & _).
  apply DELETE_ok_inv in H. destruct H as [Hin ->]. simpl.
  assert (Hnone : dict_get i (dict_delitem i (DB s)) = None)
    by now apply dict_get_delitem_same.
  split; [exact Hnone|]. split.
  - intros j Hj. now apply dict_get_delitem_other.
  - split; [now apply dict_keys_delitem|].
    split; [now apply dict_delitem_length|]. split; [reflexivity|].
    unfold serve. rewrite route_authorised. simpl. rewrite delete_task_eq.
    simpl. apply dict_contains_false in Hnone. now rewrite Hnone.
Qed.

(** X11: a 404 is only answered to a request that carries the key and
    names in its path an id that is not stored; the state is as it was. *)
Theorem not_found_means_absent (e : Env) (r : request) (s : State) :
  status_code (fst (serve API_KEY e r s)) = 404 ->
  key_of r = Some (Some API_KEY)
  /\ (exists i, path_id r = Some i /\ dict_get i (DB s) = None)
  /\ snd (serve API_KEY e r s) = s.
Proof.
  intros H.
  assert (Hkey : key_of r = Some (Some API_KEY)).
  { destruct (key_of r) as [k|] eqn:Hk.
    - destruct (key_dec k) as [->|Hne]; [reflexivity|].
      destruct (not_the_key e r s k Hk Hne) as [_ Hc]. lia.
    - destruct r; simpl in Hk; try discriminate Hk. simpl in H. lia. }
  split; [exact Hkey|].
  destruct r as [|k b|k i|k i b|k i b|k i|k]; simpl in Hkey;
    try discriminate Hkey; injection Hkey as ->; unfold serve in *;
    rewrite route_authorised in *.
  - destruct (TaskIn_validate (today e) b) as [errors|p] eqn:Hp;
      [simpl in H; lia|].
    rewrite create_task_eq in *.
    rewrite (Task_init_ok _ _ _ _ _ (TaskIn_validate_ok _ _ _ Hp)) in *.
    simpl in H. lia.
  - simpl in *. rewrite get_task_eq in *.
    destruct (dict_get i (DB s)) eqn:E; simpl in H; [lia|].
    split; [exists i; now split | reflexivity].
  - destruct (TaskIn_validate (today e) b) as [errors|p] eqn:Hp;
      [simpl in H; lia|].
    rewrite replace_task_eq in *.
    destruct (dict_get i (DB s)) eqn:E.
    + rewrite (Task_init_ok _ _ _ _ _ (TaskIn_validate_ok _ _ _ Hp)) in *.
      simpl in H. lia.
    + split; [exists i; now split | reflexivity].
  - destruct (TaskUpdate_validate (today e) b) as [errors|p] eqn:Hp;
      [simpl in H; lia|].
    rewrite update_task_eq in *.
    destruct (dict_get i (DB s)) eqn:E.
    + destruct (Task_init _ _) as [x|t1] eqn:Et; [|simpl in H; lia].
      apply Task_init_inl in Et. destruct Et as [errors ->].
      simpl in H. lia.
    + split; [exists i; now split | reflexivity].
  - simpl in *. rewrite delete_task_eq in *.
    destruct (dict_contains i (DB s)) eqn:E; simpl in H; [lia|].
    apply dict_contains_false in E.
    split; [exists i; now split | reflexivity].
  - simpl in H. lia.
Qed.

(** X12: a request that names an id in its path leaves the record of every
    other id as it is; and in a reachable state a POST leaves every stored
    record as it is. *)
Theorem other_ids_untouched (e : Env) (r : request) (s : State) :
  (forall i j, path_id r = Some i -> j <> i ->
     dict_get j (DB (snd (serve API_KEY e r s))) = dict_get j (DB s))
  /\ (reachable API_KEY s ->
      forall j t, path_id r = None -> dict_get j (DB s) = Some t ->
        dict_get j (DB (snd (serve API_KEY e r s))) = Some t).
Proof.
  destruct (serve API_KEY e r s) as [resp s'] eqn:E.
  apply serve_effect_of in E. simpl. split.
  - intros i j Hi Hj.
    destruct E as [r resp H1 H2|k b p Hp|k i' b p old Hp Hold
                  |k i' b p existing t Hp Hex Ht|k i' Hin];
      simpl in Hi; try discriminate Hi; try reflexivity;
      injection Hi as ->; simpl.
    + now apply dict_get_setitem_other.
    + now apply dict_get_setitem_other.
    + now apply dict_get_delitem_other.
  - intros Hreach j t Hr Hj. apply reachable_inv in Hreach.
    destruct Hreach as (_ & _ & Hids).
    destruct E as [r resp H1 H2|k b p Hp|k i' b p old Hp Hold
                  |k i' b p existing t' Hp Hex Ht|k i' Hin];
      simpl in Hr; try discriminate Hr; try exact Hj.
    simpl. rewrite dict_get_setitem_other; [exact Hj|].
    apply dict_get_In, Hids in Hj. lia.
Qed.

Lemma effect_bounds e s r resp s' :
  effect e s r resp s' ->
  (forall k t, In (k, t) (DB s) -> Task_bounds t) ->
  forall k t, In (k, t) (DB s') -> Task_bounds t.
Proof.
  intros E Hs.
  destruct E as [r resp H1 H2|k b p Hp|k i b p old Hp Hold
                |k i b p existing t Hp Hex Ht|k i Hin]; simpl;
    intros k0 t0 H0.
  - now apply (Hs k0).
  - apply In_setitem in H0. destruct H0 as [[= -> ->]|H0];
      [|now apply (Hs k0)].
    apply TaskIn_validate_ok in Hp. destruct Hp as (H1 & H2 & _).
    now split.
  - apply In_setitem in H0. destruct H0 as [[= -> ->]|H0];
      [|now apply (Hs k0)].
    apply TaskIn_validate_ok in Hp. destruct Hp as (H1 & H2 & _).
    now split.
  - apply In_setitem in H0. destruct H0 as [[= -> ->]|H0];
      [|now apply (Hs k0)].
    now apply Task_init_bounds in Ht.
  - apply In_delitem in H0. now apply (Hs k0).
Qed.

Lemma run_bounds rs :
  forall s,
    (forall k t, In (k, t) (DB s) -> Task_bounds t) ->
    forall k t, In (k, t) (DB (run API_KEY s rs)) -> Task_bounds t.
Proof.
  induction rs as [|[e r] rs IH]; intros s Hs; simpl; [exact Hs|].
  apply IH. eapply effect_bounds; [apply serve_effect | exact Hs].
Qed.

Lemma reachable_bounds s k t :
  reachable API_KEY s -> In (k, t) (DB s) -> Task_bounds t.
Proof.
  intros [rs ->]. apply run_bounds. intros k0 t0 [].
Qed.

(** X13: in every reachable state every stored task has a title of 4 to
    100 characters and a description of at most 100: the wider bounds of
    the partial payload never reach the store. *)
Theorem stored_tasks_within_bounds (s : State) (i : Z) (t : Task) :
  reachable API_KEY s ->
  dict_get i (DB s) = Some t ->
  (4 <= String.length (title t) <= 100)%nat
  /\ match description t with
     | Some d => (String.length d <= 100)%nat
     | None => True
     end.
Proof.
  intros Hreach Hget. apply dict_get_In in Hget.
  exact (reachable_bounds s i t Hreach Hget).
Qed.

(** One request keeps the creation time and the id of a stored record, or
    removes the record. *)
Lemma effect_created_at e s r resp s' i t :
  store_inv s -> effect e s r resp s' ->
  dict_get i (DB s) = Some t ->
  dict_get i (DB s') = None
  \/ exists t', dict_get i (DB s') = Some t'
                /\ created_at t' = created_at t /\ id t' = id t.
Proof.
  intros (Hnd & _ & Hids) E Hget.
  destruct E as [r resp H1 H2|k b p Hp|k j b p old Hp Hold
                |k j b p existing t0 Hp Hex Ht|k j Hin]; simpl.
  - right. eauto.
  - right. exists t. rewrite dict_get_setitem_other; [now repeat split|].
    apply dict_get_In, Hids in Hget. lia.
  - right. destruct (Z.eq_dec i j) as [->|Hne].
    + rewrite dict_get_setitem_same. eexists. split; [reflexivity|].
      simpl. rewrite Hget in Hold. injection Hold as <-.
      split; [reflexivity|]. apply dict_get_In, Hids in Hget.
      symmetry. apply Hget.
    + exists t. rewrite dict_get_setitem_other; [now repeat split | exact Hne].
  - right. destruct (Z.eq_dec i j) as [->|Hne].
    + rewrite dict_get_setitem_same. exists t0. split; [reflexivity|].
      rewrite Hget in Hex. injection Hex as <-.
      apply Task_init_inr in Ht. destruct Ht as (Hid & Hc & _).
      simpl in Hid, Hc. now split.
    + exists t. rewrite dict_get_setitem_other; [now repeat split | exact Hne].
  - destruct (Z.eq_dec i j) as [->|Hne].
    + left. now apply dict_get_delitem_same.
    + right. exists t. rewrite dict_get_delitem_other; [now repeat split|].
      exact Hne.
Qed.

Lemma run_created_at rs :
  forall s i t,
    store_inv s -> dict_get i (DB s) = Some t ->
    forall t', dict_get i (DB (run API_KEY s rs)) = Some t' ->
               created_at t' = created_at t /\ id t' = id t.
Proof.
  induction rs as [|[e r] rs IH]; intros s i t Hs Hget t' Hget'; simpl in *.
  - rewrite Hget in Hget'. injection Hget' as <-. now split.
  - pose proof (serve_transition API_KEY e r s Hs) as Htr.
    pose proof (transition_inv _ _ Hs Htr) as Hs1.
    destruct (effect_created_at e s r _ _ i t Hs (serve_effect e r s) Hget)
      as [Hnone|(t1 & Ht1 & Hc & Hi)].
    + assert (Hlt : i < _id_counter (snd (serve API_KEY e r s))).
      { apply transition_counter in Htr. destruct Hs as (_ & _ & Hids).
        apply dict_get_In, Hids in Hget. lia. }
      destruct (never_again API_KEY i rs _ Hs1 Hlt Hnone) as [Habs _].
      rewrite Habs in Hget'. discriminate Hget'.
    + destruct (IH _ i t1 Hs1 Ht1 t' Hget') as [Hc' Hi'].
      split; congruence.
Qed.

(** X14: the creation time and the id of a stored task never change: in
    a reachable state, whatever requests follow, a record found under the
    same id later has the same [created_at] and the same [id]. *)
Theorem created_at_never_changes (s : State) (i : Z) (t t' : Task)
    (rs : list (Env * request)) :
  reachable API_KEY s ->
  dict_get i (DB s) = Some t ->
  dict_get i (DB (run API_KEY s rs)) = Some t' ->
  created_at t' = created_at t /\ id t' = id t.
Proof.
  intros Hreach Hget Hget'. apply reachable_inv in Hreach.
  exact (run_created_at rs s i t Hreach Hget t' Hget').
Qed.

(** *** Replacing a created task *)

(** C5: when a task is created by a POST answered 201 in a reachable
    state and, after any further requests, a PUT on its id is answered
    200, the new record keeps the id and the [created_at] of the created
    one, its title, description, priority, status and due date are those
    of the validated replacement payload, its [updated_at] is the clock
    reading of the PUT, which is strictly greater than the [updated_at] of
    the created record exactly when the clock reading of the PUT is later
    than that of the POST, and it is the record stored under the id. *)
Theorem replace_keeps_created_at (e1 e2 : Env) (k1 k2 : option string)
    (b1 b2 : Body) (s s1 s2 : State) (t1 t2 : Task)
    (rs : list (Env * request)) :
  reachable API_KEY s ->
  serve API_KEY e1 (POST_tasks k1 b1) s = (Response 201 (CTask t1), s1) ->
  serve API_KEY e2 (PUT_task k2 (id t1) b2) (run API_KEY s1 rs)
  = (Response 200 (CTask t2), s2) ->
  created_at t2 = created_at t1
  /\ id t2 = id t1
  /\ TaskIn_validate (today e2) b2 = inr (base t2)
  /\ updated_at t2 = now e2
  /\ (updated_at t1 < updated_at t2 <-> now e1 < now e2)
  /\ dict_get (id t1) (DB s2) = Some t2.
Proof.
  intros Hreach H1 H2. apply reachable_inv in Hreach.
  assert (Hs1 : store_inv s1).
  { replace s1 with (snd (serve API_KEY e1 (POST_tasks k1 b1) s))
      by now rewrite H1.
    eapply transition_inv; [exact Hreach | now apply serve_transition]. }
  apply POST_created_inv in H1. destruct H1 as (p1 & Hp1 & Ht1 & Hst1).
  assert (Hget1 : dict_get (id t1) (DB s1) = Some t1).
  { rewrite Hst1. simpl. rewrite Ht1 at 1. simpl.
    apply dict_get_setitem_same. }
  assert (Hu1 : updated_at t1 = now e1) by now rewrite Ht1.
  apply PUT_ok_inv in H2. destruct H2 as (p2 & old & Hp2 & Hold & Ht2 & Hst2).
  destruct (run_created_at rs s1 (id t1) t1 Hs1 Hget1 old Hold) as [Hc _].
  rewrite Hst2. simpl. rewrite dict_get_setitem_same.
  rewrite Ht2. simpl. rewrite Hu1.
  split; [exact Hc|]. split; [reflexivity|]. split; [exact Hp2|].
  split; [reflexivity|]. split; [reflexivity | reflexivity].
Qed.

(** *** Partial updates *)

Lemma asked_update_key {A} (f : field A) (old new : option A) :
  update_key old f = new -> asked f old new.
Proof. destruct f; simpl; intros <-; reflexivity. Qed.

(** The payload of [TaskUpdate] holds the keys as they were sent. *)
Lemma TaskUpdate_payload today b p :
  TaskUpdate_validate today b = inr p ->
  u_title p = b_title b
  /\ u_description p = b_description b
  /\ u_due_date p = b_due_date b
  /\ match b_priority b with
     | Unset => u_priority p = Unset
     | Null => u_priority p = Null
     | Val x => exists q, literal_Priority x = Some q /\ u_priority p = Val q
     end
  /\ match b_status b with
     | Unset => u_status p = Unset
     | Null => u_status p = Null
     | Val x => exists q, literal_Status x = Some q /\ u_status p = Val q
     end.
Proof.
  intros H. apply TaskUpdate_validate_inr in H.
  destruct H as (Ht & Hd & Hp & Hs & Hdd).
  apply optional_str_inv in Ht. apply optional_str_inv in Hd.
  apply validated_due_inv in Hdd.
  destruct Ht as [Ht _]. destruct Hd as [Hd _]. destruct Hdd as [Hdd _].
  split; [exact Ht|]. split; [exact Hd|]. split; [exact Hdd|]. split.
  - destruct (b_priority b) as [| |x]; simpl in Hp.
    + now injection Hp.
    + now injection Hp.
    + destruct (literal_Priority x) as [q|]; [|discriminate].
      exists q. split; [reflexivity | now injection Hp].
  - destruct (b_status b) as [| |x]; simpl in Hs.
    + now injection Hs.
    + now injection Hs.
    + destruct (literal_Status x) as [q|]; [|discriminate].
      exists q. split; [reflexivity | now injection Hs].
Qed.


(** X15: a PATCH answered 200 changed exactly what was sent: the record
    keeps its id and its [created_at], its [updated_at] is the clock
    reading of the request, and each of title, description, priority,
    status and due date is the stored value when the key was left out and
    the value sent otherwise; the new record is stored under the id. *)
Theorem patch_changes_what_was_sent (e : Env) (k : option string) (i : Z)
    (b : Body) (s s' : State) (t : Task) :
  serve API_KEY e (PATCH_task k i b) s = (Response 200 (CTask t), s') ->
  exists existing,
    dict_get i (DB s) = Some existing
    /\ id t = id existing
    /\ created_at t = created_at existing
    /\ updated_at t = now e
    /\ asked (b_title b) (Some (title existing)) (Some (title t))
    /\ asked (b_description b) (description existing) (description t)
    /\ match b_priority b with
       | Unset => priority t = priority existing
       | Null => False
       | Val x => literal_Priority x = Some (priority t)
       end
    /\ match b_status b with
       | Unset => status t = status existing
       | Null => False
       | Val x => literal_Status x = Some (status t)
       end
    /\ asked (b_due_date b) (due_date existing) (due_date t)
    /\ s' = mkState (dict_setitem i t (DB s)) (_id_counter s).
Proof.
  intros H. apply PATCH_ok_inv in H.
  destruct H as (p & existing & Hv & Hget & Hinit & ->).
  apply Task_init_inr in Hinit. simpl in Hinit.
  destruct Hinit as (Hid & Hc & Hu & Ht & Hd & Hp & Hs & Hdd).
  apply TaskUpdate_payload in Hv.
  destruct Hv as (Et & Ed & Edd & Ep & Es).
  rewrite Et in Ht. rewrite Ed in Hd. rewrite Edd in Hdd.
  exists existing. split; [exact Hget|]. split; [exact Hid|].
  split; [exact Hc|]. split; [exact Hu|].
  split; [now apply asked_update_key|].
  split; [now apply asked_update_key|]. split.
  { destruct (b_priority b) as [| |x].
    - rewrite Ep in Hp. simpl in Hp. now injection Hp.
    - rewrite Ep in Hp. discriminate Hp.
    - destruct Ep as (q & Hq & Ep). rewrite Ep in Hp. simpl in Hp.
      congruence. }
  split.
  { destruct (b_status b) as [| |x].
    - rewrite Es in Hs. simpl in Hs. now injection Hs.
    - rewrite Es in Hs. discriminate Hs.
    - destruct Es as (q & Hq & Es). rewrite Es in Hs. simpl in Hs.
      congruence. }
  split; [now apply asked_update_key | reflexivity].
Qed.

(** X16: a PATCH with the key on a stored task whose body is accepted by
    [TaskUpdate] and sends [null] for the title, the priority or the
    status is answered 500, and the state is as it was: the partial model
    allows [None] where [Task] does not. *)
Theorem patch_null_is_500 (e : Env) (i : Z) (b : Body) (s : State)
    (existing : Task) :
  dict_get i (DB s) = Some existing ->
  update_body_ok (today e) b ->
  b_title b = Null \/ b_priority b = Null \/ b_status b = Null ->
  serve API_KEY e (PATCH_task (Some API_KEY) i b) s
  = (Response 500 CInternal, s).
Proof.
  intros Hget Hok Hnull. apply TaskUpdate_validate_iff in Hok.
  destruct Hok as [p Hv]. unfold serve.
  rewrite route_authorised, Hv, update_task_eq, Hget.
  destruct (Task_init _ _) as [x|t] eqn:E.
  - apply Task_init_inl in E. destruct E as [errors ->]. reflexivity.
  - exfalso. apply Task_init_inr in E. simpl in E.
    destruct E as (_ & _ & _ & Ht & _ & Hp & Hs & _).
    apply TaskUpdate_payload in Hv. destruct Hv as (Et & _ & _ & Ep & Es).
    destruct Hnull as [H|[H|H]].
    + rewrite Et, H in Ht. discriminate Ht.
    + rewrite H in Ep. rewrite Ep in Hp. discriminate Hp.
    + rewrite H in Es. rewrite Es in Hs. discriminate Hs.
Qed.


(** *** Creation *)

(** X18: the task of a POST answered 201 has the value of the counter as
    its id, the clock reading of the request as both [created_at] and
    [updated_at], the title, description and due date of the body
    ([None] for a key left out or [null]), the priority and status named
    in the body, [medium] and [todo] when they are left out; it is stored
    under its id and the counter has moved by one. *)
Theorem post_sets_fields (e : Env) (k : option string) (b : Body)
    (s s' : State) (t : Task) :
  serve API_KEY e (POST_tasks k b) s = (Response 201 (CTask t), s') ->
  id t = _id_counter s
  /\ created_at t = now e
  /\ updated_at t = now e
  /\ b_title b = Val (title t)
  /\ description t = to_option (b_description b)
  /\ due_date t = to_option (b_due_date b)
  /\ match b_priority b with
     | Unset => priority t = medium
     | Null => False
     | Val x => literal_Priority x = Some (priority t)
     end
  /\ match b_status b with
     | Unset => status t = todo
     | Null => False
     | Val x => literal_Status x = Some (status t)
     end
  /\ dict_get (id t) (DB s') = Some t
  /\ _id_counter s' = _id_counter s + 1.
Proof.
  intros H. apply POST_created_inv in H. destruct H as (p & Hv & -> & ->).
  simpl. apply TaskIn_validate_inr in Hv.
  destruct Hv as (Ht & (d & Hd & Hd') & Hp & Hs & (dd & Hdd & Hdd')).
  split; [reflexivity|]. split; [reflexivity|]. split; [reflexivity|].
  split.
  { destruct (b_title b) as [| |x]; simpl in Ht; try discriminate.
    apply str_constraints_Some in Ht. destruct Ht as [-> _]. reflexivity. }
  split.
  { apply optional_str_inv in Hd. destruct Hd as [-> _]. exact Hd'. }
  split.
  { change (TaskIn_due_not_past (today e))
      with (TaskUpdate_due_not_past (today e)) in Hdd.
    apply validated_due_inv in Hdd. destruct Hdd as [-> _]. exact Hdd'. }
  split.
  { destruct (b_priority b) as [| |x]; simpl in Hp;
      [now injection Hp | discriminate | exact Hp]. }
  split.
  { destruct (b_status b) as [| |x]; simpl in Hs;
      [now injection Hs | discriminate | exact Hs]. }
  split; [apply dict_get_setitem_same | reflexivity].
Qed.


(** X20: with the key, a PATCH is answered 422, in whatever state and for
    whatever id, exactly when the body is not accepted by [TaskUpdate]: a
    title that is empty or over 100 characters, a description over 500, a
    priority or status outside its three names, or a due date that is
    past; the state is then as it was. *)
Theorem patch_body_rejected_exactly (e : Env) (i : Z) (b : Body)
    (s : State) :
  (update_body_ok (today e) b ->
   status_code (fst (serve API_KEY e (PATCH_task (Some API_KEY) i b) s))
   <> 422)
  /\ (~ update_body_ok (today e) b ->
      exists errors,
        serve API_KEY e (PATCH_task (Some API_KEY) i b) s
        = (Response 422 (CErrors errors), s)).
Proof.
  unfold serve. rewrite route_authorised. split.
  - intros H. apply TaskUpdate_validate_iff in H. destruct H as [p Hv].
    rewrite Hv, update_task_eq.
    destruct (dict_get i (DB s)) as [existing|]; [|simpl; lia].
    destruct (Task_init _ _) as [x|t1] eqn:E; [|simpl; lia].
    apply Task_init_inl in E. destruct E as [errors ->]. simpl. lia.
  - intros H. destruct (TaskUpdate_validate (today e) b) as [errors|p] eqn:Hv.
    + eauto.
    + elim H. apply TaskUpdate_validate_iff. eauto.
Qed.

(** *** Counting *)

Lemma count_status_cons c r l :
  count_status c (r :: l)
  = (if status_code r =? c then 1 else 0) + count_status c l.
Proof.
  unfold count_status. cbn [filter].
  destruct (status_code r =? c); cbn [List.length];
    rewrite ?Nat2Z.inj_succ; lia.
Qed.

Lemma fresh_counter s :
  store_inv s -> dict_get (_id_counter s) (DB s) = None.
Proof.
  intros (_ & _ & Hids).
  destruct (dict_get (_id_counter s) (DB s)) as [t|] eqn:E; [|reflexivity].
  apply dict_get_In, Hids in E. lia.
Qed.

Lemma run_counts rs :
  forall s,
    store_inv s ->
    _id_counter (run API_KEY s rs)
    = _id_counter s + count_status 201 (responses API_KEY s rs)
    /\ Z.of_nat (List.length (DB (run API_KEY s rs)))
       + count_status 204 (responses API_KEY s rs)
       = Z.of_nat (List.length (DB s))
         + count_status 201 (responses API_KEY s rs).
Proof.
  induction rs as [|[e r] rs IH]; intros s Hs; cbn [run responses].
  - unfold count_status. simpl. lia.
  - pose proof (serve_transition API_KEY e r s Hs) as Htr.
    pose proof (transition_inv _ _ Hs Htr) as Hs1.
    destruct (IH _ Hs1) as [IH1 IH2]. rewrite IH1. rewrite !count_status_cons.
    pose proof (fresh_counter s Hs) as Hfresh.
    destruct (serve API_KEY e r s) as [resp s'] eqn:E.
    apply serve_effect_of in E. cbn [fst snd] in *.
    set (c1 := count_status 201 (responses API_KEY s' rs)) in *.
    set (c4 := count_status 204 (responses API_KEY s' rs)) in *.
    clearbody c1 c4. clear IH IH1 Htr Hs1.
    destruct (Z.eqb_spec (status_code resp) 201) as [H201|H201];
      destruct (Z.eqb_spec (status_code resp) 204) as [H204|H204];
      destruct E as [r resp H1 H2|k b p Hp|k i b p old Hp Hold
                    |k i b p existing t Hp Hex Ht|k i Hin];
      cbn [status_code DB _id_counter] in *; try lia.
    + assert (L : List.length
                    (dict_setitem (_id_counter s)
                       (mkTask p (_id_counter s) (now e) (now e)) (DB s))
                  = S (List.length (DB s))).
      { rewrite dict_setitem_absent by exact Hfresh.
        rewrite length_app. simpl. lia. }
      rewrite L in IH2. lia.
    + apply dict_delitem_length in Hin. lia.
    + rewrite dict_setitem_length_present in IH2 by congruence. lia.
    + rewrite dict_setitem_length_present in IH2 by congruence. lia.
Qed.

(** *** The date read twice *)

Lemma serve_at_same_date e r s :
  serve_at API_KEY e e r s = serve API_KEY e r s.
Proof. destruct r; reflexivity. Qed.

(** A payload accepted at a date passes [Task] at that date and at any
    earlier one. *)
Lemma Task_init_ok_at today today' p i c u :
  TaskIn_ok today p -> today' <= today ->
  Task_init today' (TaskIn_model_dump i c u p) = inr (mkTask p i c u).
Proof.
  intros (Ht & Hd & Hdd) Hle. apply Task_init_ok.
  split; [exact Ht|]. split; [exact Hd|].
  destruct (due_date p); [lia | exact I].
Qed.

(** A payload whose due date was accepted and is past when [Task] is
    built makes [Task] raise. *)
Lemma Task_init_late today' p i c u (d : date) :
  due_date p = Some d -> d < today' ->
  exists errors,
    Task_init today' (TaskIn_model_dump i c u p)
    = inl (ValidationError errors).
Proof.
  intros Hd Hlt.
  destruct (Task_init_past today' (TaskIn_model_dump i c u p) d Hd Hlt)
    as (errors & H & _). eauto.
Qed.

(** What one request does to the counter. *)
Lemma serve_at_counter ev eh r s :
  _id_counter (snd (serve_at API_KEY ev eh r s))
  = _id_counter s
    + (if takes_id (r, fst (serve_at API_KEY ev eh r s)) then 1 else 0)
  /\ (status_code (fst (serve_at API_KEY ev eh r s)) = 201 ->
      takes_id (r, fst (serve_at API_KEY ev eh r s)) = true)
  /\ (today eh <= today ev ->
      takes_id (r, fst (serve_at API_KEY ev eh r s)) = true ->
      status_code (fst (serve_at API_KEY ev eh r s)) = 201).
Proof.
  destruct r as [|k b|k i|k i b|k i b|k i|k]; cbn [serve_at].
  - cbn. repeat split; try lia; discriminate.
  - destruct (route_cases API_KEY k (TaskIn_validate (today ev) b)
                (create_task eh) (fun t => Response 201 (CTask t)) s)
      as [(r & -> & Hr)|(p & Hp & ->)].
    + unfold takes_id. cbn [fst snd].
      destruct (Z.eqb_spec (status_code r) 201);
        destruct (Z.eqb_spec (status_code r) 500); cbn; try lia;
        repeat split; try lia; try discriminate.
    + rewrite create_task_eq.
      destruct (Task_init _ _) as [x|t] eqn:E.
      * apply Task_init_inl in E as E'. destruct E' as [errors ->].
        cbn. split; [lia|]. split; [discriminate|].
        intros Hle _. exfalso.
        rewrite (Task_init_ok_at (today ev) (today eh) p _ _ _
                   (TaskIn_validate_ok _ _ _ Hp) Hle) in E.
        discriminate E.
      * cbn. repeat split; lia.
  - destruct (route_cases API_KEY k no_payload (fun _ => get_task i)
                (fun t => Response 200 (CTask t)) s)
      as [(r & -> & Hr)|(p & _ & ->)].
    + cbn. repeat split; try lia; discriminate.
    + rewrite get_task_eq. destruct (dict_get i (DB s)); cbn;
        repeat split; try lia; discriminate.
  - destruct (route_cases API_KEY k (TaskIn_validate (today ev) b)
                (replace_task eh i) (fun t => Response 200 (CTask t)) s)
      as [(r & -> & Hr)|(p & Hp & ->)].
    + cbn. repeat split; try lia; discriminate.
    + rewrite replace_task_eq. destruct (dict_get i (DB s)) as [old|].
      * destruct (Task_init _ _) as [x|t] eqn:E.
        -- apply Task_init_inl in E. destruct E as [errors ->].
           cbn. repeat split; try lia; discriminate.
        -- cbn. repeat split; try lia; discriminate.
      * cbn. repeat split; try lia; discriminate.
  - destruct (route_cases API_KEY k (TaskUpdate_validate (today ev) b)
                (update_task eh i) (fun t => Response 200 (CTask t)) s)
      as [(r & -> & Hr)|(p & Hp & ->)].
    + cbn. repeat split; try lia; discriminate.
    + rewrite update_task_eq. destruct (dict_get i (DB s)) as [existing|].
      * destruct (Task_init _ _) as [x|t] eqn:E.
        -- apply Task_init_inl in E. destruct E as [errors ->].
           cbn. repeat split; try lia; discriminate.
        -- cbn. repeat split; try lia; discriminate.
      * cbn. repeat split; try lia; discriminate.
  - destruct (route_cases API_KEY k no_payload (fun _ => delete_task i)
                (fun _ => Response 204 CEmpty) s)
      as [(r & -> & Hr)|(p & _ & ->)].
    + cbn. repeat split; try lia; discriminate.
    + rewrite delete_task_eq. destruct (dict_contains i (DB s)); cbn;
        repeat split; try lia; discriminate.
  - destruct (route_cases API_KEY k no_payload (fun _ => list_tasks_simple)
                (fun ts => Response 200 (CTasks ts)) s)
      as [(r & -> & Hr)|(p & _ & ->)];
      cbn; repeat split; try lia; discriminate.
Qed.

Lemma count_taken_cons x l :
  count_taken (x :: l) = (if takes_id x then 1 else 0) + count_taken l.
Proof.
  unfold count_taken. cbn [filter].
  destruct (takes_id x); cbn [List.length]; rewrite ?Nat2Z.inj_succ; lia.
Qed.

Lemma run_at_counts rs :
  forall s,
    _id_counter (run_at API_KEY s rs)
    = _id_counter s + count_taken (exchanges_at API_KEY s rs)
    /\ count_status 201 (map snd (exchanges_at API_KEY s rs))
       <= count_taken (exchanges_at API_KEY s rs)
    /\ (Forall same_date rs ->
        count_taken (exchanges_at API_KEY s rs)
        = count_status 201 (map snd (exchanges_at API_KEY s rs))).
Proof.
  induction rs as [|[[ev eh] r] rs IH]; intros s;
    cbn [run_at exchanges_at map snd].
  - unfold count_taken, count_status. cbn. repeat split; lia.
  - destruct (IH (snd (serve_at API_KEY ev eh r s))) as (IH1 & IH2 & IH3).
    destruct (serve_at_counter ev eh r s) as (H1 & H2 & H3).
    rewrite IH1, H1, count_taken_cons, count_status_cons.
    set (resp := fst (serve_at API_KEY ev eh r s)) in *.
    destruct (takes_id (r, resp)) eqn:Et;
      destruct (Z.eqb_spec (status_code resp) 201) as [E|E].
    + split; [lia|]. split; [lia|].
      intros Hall. inversion Hall; subst. rewrite IH3 by assumption. lia.
    + split; [lia|]. split; [lia|].
      intros Hall. inversion Hall as [|? ? Hx Hrest]; subst.
      elim E. now apply H3.
    + specialize (H2 E). discriminate H2.
    + split; [lia|]. split; [lia|].
      intros Hall. inversion Hall; subst. rewrite IH3 by assumption. lia.
Qed.

(** X21: an id is taken by every POST whose handler runs, whether it is
    answered 201 or, when [Task] raises after [next(_id_counter)], 500:
    after any sequence of requests from the start of the process the next
    id is one more than the number of such POSTs.  It is therefore at
    least one more than the number of 201 answers, and exactly that when
    in no request the date moved on between the validation of the body
    and the construction of [Task]. *)
Theorem counter_counts_created (rs : list (Env * Env * request)) :
  _id_counter (run_at API_KEY init rs)
  = 1 + count_taken (exchanges_at API_KEY init rs)
  /\ 1 + count_status 201 (map snd (exchanges_at API_KEY init rs))
     <= _id_counter (run_at API_KEY init rs)
  /\ (Forall same_date rs ->
      _id_counter (run_at API_KEY init rs)
      = 1 + count_status 201 (map snd (exchanges_at API_KEY init rs))).
Proof.
  destruct (run_at_counts rs init) as (H1 & H2 & H3).
  change (_id_counter init) with 1 in H1.
  split; [exact H1|]. split; [lia|].
  intros Hall. rewrite H1, (H3 Hall). reflexivity.
Qed.

(** X22: after any sequence of requests from the start of the process,
    the number of stored tasks is the number of 201 answers minus the
    number of 204 answers. *)
Theorem size_is_created_minus_deleted (rs : list (Env * request)) :
  Z.of_nat (List.length (DB (run API_KEY init rs)))
  = count_status 201 (responses API_KEY init rs)
    - count_status 204 (responses API_KEY init rs).
Proof.
  destruct (run_counts rs init (init_inv)) as [_ H]. simpl in H. lia.
Qed.

(** *** Status codes *)

(** X23: every route answers with one of the status codes of its row:
    200 for the landing page; 201, 401, 422 or 500 for POST; 200, 401, 404
    or 422 for GET of a task; 200, 401, 404, 422 or 500 for PUT and
    PATCH; 204, 401, 404 or 422 for DELETE; 200, 401 or 422 for the list.
    A 500 comes from PATCH, or from a POST or PUT for which the date
    moved on between the validation of the body and the construction of
    [Task]. *)
Theorem status_table (ev eh : Env) (r : request) (s : State) :
  In (status_code (fst (serve_at API_KEY ev eh r s))) (statuses r)
  /\ (status_code (fst (serve_at API_KEY ev eh r s)) = 500 ->
      (exists k i b, r = PATCH_task k i b) \/ today ev < today eh).
Proof.
  destruct r as [|k b|k i|k i b|k i b|k i|k]; cbn [serve_at].
  - cbn. split; [now left | discriminate].
  - destruct (route_cases API_KEY k (TaskIn_validate (today ev) b)
                (create_task eh) (fun t => Response 201 (CTask t)) s)
      as [(r & -> & Hr)|(p & Hp & ->)].
    + cbn. split; [destruct Hr as [Hr|Hr]; rewrite Hr; tauto | lia].
    + rewrite create_task_eq.
      destruct (Task_init _ _) as [x|t] eqn:E.
      * apply Task_init_inl in E as E'. destruct E' as [errors ->].
        cbn. split; [tauto|]. intros _. right.
        destruct (Z.lt_ge_cases (today ev) (today eh)) as [Hlt|Hle];
          [exact Hlt|]. exfalso.
        rewrite (Task_init_ok_at (today ev) (today eh) p _ _ _
                   (TaskIn_validate_ok _ _ _ Hp) Hle) in E.
        discriminate E.
      * cbn. split; [tauto | discriminate].
  - destruct (route_cases API_KEY k no_payload (fun _ => get_task i)
                (fun t => Response 200 (CTask t)) s)
      as [(r & -> & Hr)|(p & _ & ->)].
    + cbn. split; [destruct Hr as [Hr|Hr]; rewrite Hr; tauto | lia].
    + rewrite get_task_eq. destruct (dict_get i (DB s)); cbn;
        (split; [tauto | discriminate]).
  - destruct (route_cases API_KEY k (TaskIn_validate (today ev) b)
                (replace_task eh i) (fun t => Response 200 (CTask t)) s)
      as [(r & -> & Hr)|(p & Hp & ->)].
    + cbn. split; [destruct Hr as [Hr|Hr]; rewrite Hr; tauto | lia].
    + rewrite replace_task_eq.
      destruct (dict_get i (DB s)) as [old|];
        [|cbn; split; [tauto | discriminate]].
      destruct (Task_init _ _) as [x|t] eqn:E.
      * apply Task_init_inl in E as E'. destruct E' as [errors ->].
        cbn. split; [tauto|]. intros _. right.
        destruct (Z.lt_ge_cases (today ev) (today eh)) as [Hlt|Hle];
          [exact Hlt|]. exfalso.
        rewrite (Task_init_ok_at (today ev) (today eh) p _ _ _
                   (TaskIn_validate_ok _ _ _ Hp) Hle) in E.
        discriminate E.
      * cbn. split; [tauto | discriminate].
  - split; [|intros _; left; eauto].
    destruct (route_cases API_KEY k (TaskUpdate_validate (today ev) b)
                (update_task eh i) (fun t => Response 200 (CTask t)) s)
      as [(r & -> & Hr)|(p & Hp & ->)].
    + cbn. destruct Hr as [Hr|Hr]; rewrite Hr; tauto.
    + rewrite update_task_eq.
      destruct (dict_get i (DB s)) as [existing|]; [|cbn; tauto].
      destruct (Task_init _ _) as [x|t1] eqn:E; [|cbn; tauto].
      apply Task_init_inl in E. destruct E as [errors ->]. cbn. tauto.
  - destruct (route_cases API_KEY k no_payload (fun _ => delete_task i)
                (fun _ => Response 204 CEmpty) s)
      as [(r & -> & Hr)|(p & _ & ->)].
    + cbn. split; [destruct Hr as [Hr|Hr]; rewrite Hr; tauto | lia].
    + rewrite delete_task_eq. destruct (dict_contains i (DB s)); cbn;
        (split; [tauto | discriminate]).
  - destruct (route_cases API_KEY k no_payload (fun _ => list_tasks_simple)
                (fun ts => Response 200 (CTasks ts)) s)
      as [(r & -> & Hr)|(p & _ & ->)].
    + cbn. split; [destruct Hr as [Hr|Hr]; rewrite Hr; tauto | lia].
    + cbn. split; [tauto | discriminate].
Qed.

(** X26: when the date moves on between the validation of the body and
    the construction of [Task], so that the due date the validator
    accepted is past by then, a POST with the key is answered 500, stores
    nothing and still takes an id from the counter; a PUT on a stored id
    is answered 500 and leaves the state as it was. *)
Theorem date_change_takes_id (ev eh : Env) (b : Body) (s : State)
    (d : date) :
  create_body_ok (today ev) b ->
  b_due_date b = Val d ->
  d < today eh ->
  serve_at API_KEY ev eh (POST_tasks (Some API_KEY) b) s
  = (Response 500 CInternal, mkState (DB s) (_id_counter s + 1))
  /\ forall i old,
       dict_get i (DB s) = Some old ->
       serve_at API_KEY ev eh (PUT_task (Some API_KEY) i b) s
       = (Response 500 CInternal, s).
Proof.
  intros Hok Hb Hlt. apply TaskIn_validate_iff in Hok.
  destruct Hok as [p Hv].
  assert (Hd : due_date p = Some d).
  { apply TaskIn_validate_inr in Hv.
    destruct Hv as (_ & _ & _ & _ & (dd & Hdd & ->)).
    change (TaskIn_due_not_past (today ev))
      with (TaskUpdate_due_not_past (today ev)) in Hdd.
    apply validated_due_inv in Hdd. destruct Hdd as [-> _].
    now rewrite Hb. }
  cbn [serve_at]. split.
  - rewrite route_authorised, Hv, create_task_eq.
    destruct (Task_init_late (today eh) p (_id_counter s) (now eh) (now eh)
                d Hd Hlt) as [errors ->]. reflexivity.
  - intros i old Hold. rewrite route_authorised, Hv, replace_task_eq, Hold.
    destruct (Task_init_late (today eh) p i (created_at old) (now eh)
                d Hd Hlt) as [errors ->]. reflexivity.
Qed.



(** *** Replacing twice *)

(** X24: a replace leaves no trace but in [created_at], which it keeps:
    when two PUTs of the same id are answered 200 one after the other, the
    second has the answer and the final state it would have had without
    the first. *)
Theorem put_last_wins (e1 e2 : Env) (k1 k2 : option string) (i : Z)
    (b1 b2 : Body) (s s1 s2 : State) (t1 t2 : Task) :
  serve API_KEY e1 (PUT_task k1 i b1) s = (Response 200 (CTask t1), s1) ->
  serve API_KEY e2 (PUT_task k2 i b2) s1 = (Response 200 (CTask t2), s2) ->
  serve API_KEY e2 (PUT_task k2 i b2) s = (Response 200 (CTask t2), s2).
Proof.
  intros H1 H2.
  assert (Hk : k2 = Some API_KEY).
  { destruct (key_dec k2) as [Hk|Hne]; [exact Hk|].
    destruct (not_the_key e2 (PUT_task k2 i b2) s1 k2 eq_refl Hne) as [_ Hc].
    rewrite H2 in Hc. simpl in Hc. lia. }
  subst k2.
  apply PUT_ok_inv in H1. destruct H1 as (p1 & old & Hp1 & Hold & -> & ->).
  apply PUT_ok_inv in H2. destruct H2 as (p2 & old2 & Hp2 & Hold2 & -> & ->).
  simpl in Hold2. rewrite dict_get_setitem_same in Hold2.
  injection Hold2 as <-. simpl.
  unfold serve. rewrite route_authorised, Hp2, replace_task_eq, Hold.
  rewrite (Task_init_ok _ _ _ _ _ (TaskIn_validate_ok _ _ _ Hp2)).
  now rewrite dict_setitem_setitem.
Qed.


End Behaviour.

(** ** The further theorems at concrete requests *)

Lemma one_task_reachable : reachable key one_task.
Proof.
  exists [(day10, POST_tasks (Some key) (only_title "Write spec"))].
  reflexivity.
Qed.


Lemma wrong_key_unauthorized_witness :
  serve key day10 (POST_tasks (Some "guess") (only_title "Write spec")) init
  = (unauthorized, init).
Proof.
  apply (wrong_key_unauthorized key day10
           (POST_tasks (Some "guess") (only_title "Write spec")) init "guess").
  - reflexivity.
  - discriminate.
Defined.

Lemma success_needs_key_witness :
  POST_tasks (Some key) (only_title "Write spec") = GET_root
  \/ key_of (POST_tasks (Some key) (only_title "Write spec"))
     = Some (Some key).
Proof.
  apply (success_needs_key key day10
           (POST_tasks (Some key) (only_title "Write spec")) init).
  left. simpl. lia.
Defined.

Lemma reads_leave_state_witness :
  snd (serve key day10 (GET_tasks None) one_task) = one_task.
Proof.
  apply (reads_leave_state key day10 (GET_tasks None) one_task).
  reflexivity.
Defined.

Lemma create_then_get_witness :
  serve key day11 (GET_task (Some key) (id written)) one_task
  = (Response 200 (CTask written), one_task).
Proof.
  apply (create_then_get key day10 day11 (Some key)
           (only_title "Write spec") init one_task written).
  reflexivity.
Defined.

Lemma get_returns_the_stored_witness :
  dict_get 1 (DB one_task) = Some written /\ id written = 1.
Proof.
  apply (get_returns_the_stored key day10 (Some key) 1 one_task written).
  - exact one_task_reachable.
  - reflexivity.
Defined.

Lemma never_created_is_404_witness :
  serve key day10 (GET_task (Some key) 5) one_task
  = (Response 404 (CDetail "Task not found"), one_task)
  /\ serve key day10 (DELETE_task (Some key) 5) one_task
     = (Response 404 (CDetail "Task not found"), one_task)
  /\ forall b p,
       TaskIn_validate (today day10) b = inr p ->
       serve key day10 (PUT_task (Some key) 5 b) one_task
       = (Response 404 (CDetail "Task not found"), one_task).
Proof.
  apply (never_created_is_404 key day10 5 one_task).
  - exact one_task_reachable.
  - right. simpl. lia.
Defined.

Lemma post_appends_to_list_witness :
  serve key day11 (GET_tasks (Some key)) one_task
  = (Response 200 (CTasks (dict_values (DB one_task))), one_task)
  /\ serve key day11 (GET_tasks (Some key)) two_tasks
     = (Response 200 (CTasks (dict_values (DB one_task) ++ [second])),
        two_tasks).
Proof.
  apply (post_appends_to_list key day10_later day11 (Some key)
           (only_title "Write proof") one_task two_tasks second).
  - exact one_task_reachable.
  - reflexivity.
Defined.

Lemma ids_kept_witness :
  dict_keys
    (DB (snd (serve key day10_later (PUT_task (Some key) 1 proof_body)
                two_tasks)))
  = dict_keys (DB two_tasks).
Proof.
  apply (ids_kept key day10_later (PUT_task (Some key) 1 proof_body)
           two_tasks).
  reflexivity.
Defined.

Lemma list_has_distinct_ids_witness :
  exists ts,
    serve key day10 (GET_tasks (Some key)) one_task
    = (Response 200 (CTasks ts), one_task)
    /\ map id ts = dict_keys (DB one_task)
    /\ NoDup (map id ts).
Proof.
  apply (list_has_distinct_ids key day10 one_task).
  exact one_task_reachable.
Defined.

Lemma delete_removes_one_witness :
  dict_get 1 (DB (mkState [] 2)) = None
  /\ (forall j, j <> 1 ->
        dict_get j (DB (mkState [] 2)) = dict_get j (DB one_task))
  /\ dict_keys (DB (mkState [] 2))
     = filter (fun x => negb (x =? 1)) (dict_keys (DB one_task))
  /\ S (List.length (DB (mkState [] 2))) = List.length (DB one_task)
  /\ _id_counter (mkState [] 2) = _id_counter one_task
  /\ serve key day11 (DELETE_task (Some key) 1) (mkState [] 2)
     = (Response 404 (CDetail "Task not found"), mkState [] 2).
Proof.
  apply (delete_removes_one key day10 day11 (Some key) 1 one_task
           (mkState [] 2)).
  - exact one_task_reachable.
  - reflexivity.
Defined.

Lemma not_found_means_absent_witness :
  key_of (GET_task (Some key) 7) = Some (Some key)
  /\ (exists i, path_id (GET_task (Some key) 7) = Some i
                /\ dict_get i (DB one_task) = None)
  /\ snd (serve key day10 (GET_task (Some key) 7) one_task) = one_task.
Proof.
  apply (not_found_means_absent key day10 (GET_task (Some key) 7) one_task).
  reflexivity.
Defined.

Lemma other_ids_untouched_witness :
  dict_get 2
    (DB (snd (serve key day10 (DELETE_task (Some key) 1) two_tasks)))
  = dict_get 2 (DB two_tasks).
Proof.
  apply (proj1 (other_ids_untouched key day10 (DELETE_task (Some key) 1)
                  two_tasks) 1 2).
  - reflexivity.
  - lia.
Defined.

Lemma stored_tasks_within_bounds_witness :
  (4 <= String.length (title written) <= 100)%nat
  /\ match description written with
     | Some d => (String.length d <= 100)%nat
     | None => True
     end.
Proof.
  apply (stored_tasks_within_bounds key one_task 1 written).
  - exact one_task_reachable.
  - reflexivity.
Defined.

Lemma created_at_never_changes_witness :
  created_at proved = created_at written /\ id proved = id written.
Proof.
  apply (created_at_never_changes key one_task 1 written proved
           [(day10_later, PUT_task (Some key) 1 proof_body)]).
  - exact one_task_reachable.
  - reflexivity.
  - reflexivity.
Defined.

Lemma patch_changes_what_was_sent_witness :
  exists existing,
    dict_get 1 (DB one_task) = Some existing
    /\ id written_done = id existing
    /\ created_at written_done = created_at existing
    /\ updated_at written_done = now day10_later
    /\ asked (b_title (only_status "done")) (Some (title existing))
         (Some (title written_done))
    /\ asked (b_description (only_status "done")) (description existing)
         (description written_done)
    /\ match b_priority (only_status "done") with
       | Unset => priority written_done = priority existing
       | Null => False
       | Val x => literal_Priority x = Some (priority written_done)
       end
    /\ match b_status (only_status "done") with
       | Unset => status written_done = status existing
       | Null => False
       | Val x => literal_Status x = Some (status written_done)
       end
    /\ asked (b_due_date (only_status "done")) (due_date existing)
         (due_date written_done)
    /\ mkState [(1, written_done)] 2
       = mkState (dict_setitem 1 written_done (DB one_task))
           (_id_counter one_task).
Proof.
  apply (patch_changes_what_was_sent key day10_later (Some key) 1
           (only_status "done") one_task (mkState [(1, written_done)] 2)
           written_done).
  reflexivity.
Defined.

Lemma patch_null_is_500_witness :
  serve key day10_later (PATCH_task (Some key) 1 null_title) one_task
  = (Response 500 CInternal, one_task).
Proof.
  apply (patch_null_is_500 key day10_later 1 null_title one_task written).
  - reflexivity.
  - unfold update_body_ok. simpl. tauto.
  - left. reflexivity.
Defined.


Lemma post_sets_fields_witness :
  id written = _id_counter init
  /\ created_at written = now day10
  /\ updated_at written = now day10
  /\ b_title (only_title "Write spec") = Val (title written)
  /\ description written = to_option (b_description (only_title "Write spec"))
  /\ due_date written = to_option (b_due_date (only_title "Write spec"))
  /\ match b_priority (only_title "Write spec") with
     | Unset => priority written = medium
     | Null => False
     | Val x => literal_Priority x = Some (priority written)
     end
  /\ match b_status (only_title "Write spec") with
     | Unset => status written = todo
     | Null => False
     | Val x => literal_Status x = Some (status written)
     end
  /\ dict_get (id written) (DB one_task) = Some written
  /\ _id_counter one_task = _id_counter init + 1.
Proof.
  apply (post_sets_fields key day10 (Some key) (only_title "Write spec")
           init one_task written).
  reflexivity.
Defined.


Lemma patch_body_rejected_exactly_witness :
  status_code
    (fst (serve key day10 (PATCH_task (Some key) 9 (only_status "done"))
            one_task)) <> 422
  /\ exists errors,
       serve key day10 (PATCH_task (Some key) 9 (only_title "")) one_task
       = (Response 422 (CErrors errors), one_task).
Proof.
  split.
  - apply (proj1 (patch_body_rejected_exactly key day10 9
                    (only_status "done") one_task)).
    unfold update_body_ok. simpl. tauto.
  - apply (proj2 (patch_body_rejected_exactly key day10 9 (only_title "")
                    one_task)).
    unfold update_body_ok. simpl. intros (H & _). lia.
Defined.

Lemma put_last_wins_witness :
  serve key day11 (PUT_task (Some key) 1 (only_title "Write spec")) one_task
  = (Response 200 (CTask written_no_due), mkState [(1, written_no_due)] 2).
Proof.
  apply (put_last_wins key day10_later day11 (Some key) (Some key) 1
           proof_body (only_title "Write spec") one_task
           (mkState [(1, proved)] 2) (mkState [(1, written_no_due)] 2)
           proved written_no_due).
  - reflexivity.
  - reflexivity.
Defined.


(** ** Replacing at the clock reading of the creation *)

(** The POST and the PUT are both served at the reading 1000: the PUT is
    answered 200 and the [updated_at] of the new record is not greater than
    that of the created one. *)
Lemma replace_at_same_reading :
  serve key day10 (POST_tasks (Some key) (only_title "Write spec")) init
  = (Response 201 (CTask written), one_task)
  /\ serve key day10 (PUT_task (Some key) (id written) proof_body) one_task
     = (Response 200 (CTask proved_at_once),
        mkState [(1, proved_at_once)] 2)
  /\ ~ updated_at written < updated_at proved_at_once.
Proof.
  split; [reflexivity|]. split; [reflexivity|]. simpl. lia.
Qed.

Lemma replace_keeps_created_at_witness :
  created_at proved_late = created_at written
  /\ id proved_late = id written
  /\ TaskIn_validate (today day11) proof_body = inr (base proved_late)
  /\ updated_at proved_late = now day11
  /\ (updated_at written < updated_at proved_late <-> now day10 < now day11)
  /\ dict_get (id written) (DB (mkState [(1, proved_late)] 2))
     = Some proved_late.
Proof.
  apply (replace_keeps_created_at key day10 day11 (Some key) (Some key)
           (only_title "Write spec") proof_body init one_task
           (mkState [(1, proved_late)] 2) written proved_late
           [(day10_later, PATCH_task (Some key) 1 (only_status "done"))]).
  - exists []. reflexivity.
  - reflexivity.
  - reflexivity.
Defined.

Lemma counter_counts_created_witness :
  _id_counter
    (run_at key init
       [(day10, day10, POST_tasks (Some key) (title_due "Write spec" 10));
        (day11, day11, DELETE_task (Some key) 1);
        (day11, day11, POST_tasks (Some key) (only_title "Write proof"))])
  = 1 + count_status 201
          (map snd
             (exchanges_at key init
                [(day10, day10,
                  POST_tasks (Some key) (title_due "Write spec" 10));
                 (day11, day11, DELETE_task (Some key) 1);
                 (day11, day11,
                  POST_tasks (Some key) (only_title "Write proof"))])).
Proof.
  apply (proj2 (proj2 (counter_counts_created key
           [(day10, day10, POST_tasks (Some key) (title_due "Write spec" 10));
            (day11, day11, DELETE_task (Some key) 1);
            (day11, day11,
             POST_tasks (Some key) (only_title "Write proof"))]))).
  repeat constructor; unfold same_date; simpl; lia.
Defined.

Lemma status_table_witness :
  (exists k i b,
     POST_tasks (Some key) (title_due "Write spec" 10) = PATCH_task k i b)
  \/ today day10 < today day11.
Proof.
  apply (proj2 (status_table key day10 day11
                  (POST_tasks (Some key) (title_due "Write spec" 10)) init)).
  reflexivity.
Defined.

Lemma date_change_takes_id_witness :
  serve_at key day10 day11
    (POST_tasks (Some key) (title_due "Write spec" 10)) one_task
  = (Response 500 CInternal,
     mkState (DB one_task) (_id_counter one_task + 1))
  /\ forall i old,
       dict_get i (DB one_task) = Some old ->
       serve_at key day10 day11
         (PUT_task (Some key) i (title_due "Write spec" 10)) one_task
       = (Response 500 CInternal, one_task).
Proof.
  apply (date_change_takes_id key day10 day11 (title_due "Write spec" 10)
           one_task 10).
  - unfold create_body_ok. simpl. repeat split; lia.
  - reflexivity.
  - simpl. lia.
Defined.
